(** * nvim-dbee: the plugin's connection registry and the Databricks adapter

    A shallow embedding of the two Go sources of the repository:

    - the plugin entry point ([main]): the handlers [Dbee_register_client],
      [Dbee_execute] and [Dbee_get_schema] over the shared [clientMap];
    - the Databricks adapter and driver ([Databricks.Connect],
      [Databricks.GetHelpers], [getDatabricksStructureType],
      [ListDatabases], [SelectDatabase]).

    [Structure] is embedded over the generic extractor of the core package;
    [Columns] and [Close] only forward to the client and are not embedded.

    Go strings are byte strings and are modelled by [string] (a list of
    8-bit [ascii]); Go maps are [gmap]s; a Go function that may return an
    error or panic yields an [outcome]; calls to collaborators outside the
    two files (database clients, [database/sql]) are recorded in a trace. *)

From Stdlib Require Import ZArith String Ascii List.
From stdpp Require Import base gmap strings list.

Local Open Scope string_scope.

(** ** The Go runtime and the standard library pieces the sources use *)

Module Go.

(** Dynamically typed cells ([any]) as they come out of a result row. *)
Inductive any : Type :=
| any_string (s : string)
| any_int64 (n : Z)
| any_bool (b : bool)
| any_nil.

Inductive num_error_kind : Type := ErrSyntax | ErrRange.

(** Go [error] values, by the way the sources build them.  [fmt_Errorf]
    keeps the format and its operands as written at the call site. *)
Inductive error : Type :=
| errors_New (text : string)
| fmt_Errorf (format : string) (operands : list operand)
| NumError (Func Num : string) (Err : num_error_kind)
| foreign_error (text : string)
with operand : Type :=
| of_string (s : string)
| of_error (e : error)
| of_any (v : any).

Inductive panic : Type :=
| index_out_of_range (index len : nat).

(** What a call produces: a value (with a nil error), a non-nil error, or a
    run-time panic. *)
Inductive outcome (A : Type) : Type :=
| Return (a : A)
| Error (e : error)
| Panic (p : panic).
Arguments Return {A} a.
Arguments Error {A} e.
Arguments Panic {A} p.

(** The [(value, error)] pair returned by a collaborator. *)
Inductive result (A : Type) : Type :=
| Ok (a : A)
| Err (e : error).
Arguments Ok {A} a.
Arguments Err {A} e.

(** State-passing computations: the state survives errors and panics, as
    writes to a shared Go object do. *)
Definition M (St A : Type) : Type := St -> outcome A * St.

Definition ret {St A} (a : A) : M St A := fun s => (Return a, s).

Definition bind {St A B} (m : M St A) (k : A -> M St B) : M St B :=
  fun s =>
    match m s with
    | (Return a, s') => k a s'
    | (Error e, s') => (Error e, s')
    | (Panic p, s') => (Panic p, s')
    end.

Definition throw {St A} (e : error) : M St A := fun s => (Error e, s).
Definition raise {St A} (p : panic) : M St A := fun s => (Panic p, s).
Definition get {St} : M St St := fun s => (Return s, s).
Definition modify {St} (f : St -> St) : M St unit := fun s => (Return tt, f s).

(** [(v, err) := f(...); if err != nil { return err }] *)
Definition try {St A} (r : result A) : M St A :=
  match r with
  | Ok a => ret a
  | Err e => throw e
  end.

(** [a[i]] on a slice: a run-time panic when [i] is out of range. *)
Definition index {St A} (a : list A) (i : nat) : M St A :=
  match a !! i with
  | Some x => ret x
  | None => raise (index_out_of_range i (length a))
  end.

Declare Scope go_scope.
Delimit Scope go_scope with go.
Notation "x <- m ;; k" := (bind m (fun x => k))
  (at level 100, m at next level, right associativity) : go_scope.
Notation "m ;;; k" := (bind m (fun _ => k))
  (at level 100, right associativity) : go_scope.

(** *** strconv.Atoi on a 64-bit platform *)

Definition digit_of (ch : ascii) : option Z :=
  let n := Z.of_N (N_of_ascii ch) in
  if (48 <=? n)%Z && (n <=? 57)%Z then Some (n - 48)%Z else None.

(** The digit loop of [ParseUint(s, 10, 64)]: a byte that is not a digit is
    a syntax error, a value past [2^64 - 1] a range error, whichever the
    scan meets first. *)
Fixpoint parse_digits (s : string) (n : Z) : num_error_kind + Z :=
  match s with
  | EmptyString => inr n
  | String ch s' =>
      match digit_of ch with
      | None => inl ErrSyntax
      | Some d =>
          if ((2 ^ 64 - 1) / 10 + 1 <=? n)%Z then inl ErrRange
          else
            let n1 := (n * 10 + d)%Z in
            if (2 ^ 64 - 1 <? n1)%Z then inl ErrRange
            else parse_digits s' n1
      end
  end.

Definition Atoi (s : string) : result Z :=
  let fail k := Err (NumError "Atoi" s k) in
  match s with
  | EmptyString => fail ErrSyntax
  | String ch s' =>
      let neg := Ascii.eqb ch "-" in
      let body := if neg || Ascii.eqb ch "+" then s' else s in
      match body with
      | EmptyString => fail ErrSyntax
      | _ =>
          match parse_digits body 0 with
          | inl k => fail k
          | inr un =>
              if negb neg && (2 ^ 63 <=? un)%Z then fail ErrRange
              else if neg && (2 ^ 63 <? un)%Z then fail ErrRange
              else Ok (if neg then (- un)%Z else un)
          end
      end
  end.

(** *** strings: Cut, Split and Contains for a one-byte separator *)

Fixpoint Cut (sep : ascii) (s : string) : string * string :=
  match s with
  | EmptyString => (EmptyString, EmptyString)
  | String ch s' =>
      if Ascii.eqb ch sep then (EmptyString, s')
      else let (before, after) := Cut sep s' in (String ch before, after)
  end.

Fixpoint Split (sep : ascii) (s : string) : list string :=
  match s with
  | EmptyString => [EmptyString]
  | String ch s' =>
      if Ascii.eqb ch sep then EmptyString :: Split sep s'
      else
        match Split sep s' with
        | piece :: pieces => String ch piece :: pieces
        | [] => [String ch EmptyString]
        end
  end.

Fixpoint Contains (ch : ascii) (s : string) : bool :=
  match s with
  | EmptyString => false
  | String ch' s' => Ascii.eqb ch' ch || Contains ch s'
  end.

(** *** net/url: query values *)

Definition byte (ch : ascii) : Z := Z.of_N (N_of_ascii ch).

Definition between (lo hi ch : ascii) : bool :=
  (byte lo <=? byte ch)%Z && (byte ch <=? byte hi)%Z.

Definition ishex (ch : ascii) : bool :=
  between "0" "9" ch || between "a" "f" ch || between "A" "F" ch.

Definition unhex (ch : ascii) : Z :=
  if between "0" "9" ch then (byte ch - byte "0")%Z
  else if between "a" "f" ch then (byte ch - byte "a" + 10)%Z
  else if between "A" "F" ch then (byte ch - byte "A" + 10)%Z
  else 0%Z.

Definition upperhex (n : Z) : ascii :=
  default "0"%char (String.get (Z.to_nat n) "0123456789ABCDEF").

Definition ascii_of_byte (n : Z) : ascii := ascii_of_N (Z.to_N n).

(** [shouldEscape(c, encodeQueryComponent)]: letters, digits and [-_.~]
    stay, every other byte is escaped. *)
Definition shouldEscape (ch : ascii) : bool :=
  if between "a" "z" ch || between "A" "Z" ch || between "0" "9" ch then false
  else if Contains ch "-_.~" then false
  else true.

Fixpoint QueryEscape (s : string) : string :=
  match s with
  | EmptyString => EmptyString
  | String ch s' =>
      if shouldEscape ch then
        if Ascii.eqb ch " " then String "+" (QueryEscape s')
        else
          String "%" (String (upperhex (Z.shiftr (byte ch) 4))
                     (String (upperhex (Z.land (byte ch) 15)) (QueryEscape s')))
      else String ch (QueryEscape s')
  end.

(** [None] is Go's [EscapeError]: a [%] not followed by two hex digits. *)
Fixpoint QueryUnescape (s : string) : option string :=
  match s with
  | EmptyString => Some EmptyString
  | String "%" (String a (String b s')) =>
      if ishex a && ishex b then
        String (ascii_of_byte (Z.lor (Z.shiftl (unhex a) 4) (unhex b)))
          <$> QueryUnescape s'
      else None
  | String "%" _ => None
  | String "+" s' => String " " <$> QueryUnescape s'
  | String ch s' => String ch <$> QueryUnescape s'
  end.

(** [url.Values] is [map[string][]string]. *)
Abbreviation Values := (gmap string (list string)).

(** One [key=value] piece of the loop in [parseQuery].  [URL.Query]
    discards the error, so a malformed piece is only skipped. *)
Definition parse_piece (m : Values) (piece : string) : Values :=
  if Contains ";" piece then m
  else if String.eqb piece "" then m
  else
    let (key, value) := Cut "=" piece in
    match QueryUnescape key with
    | None => m
    | Some key =>
        match QueryUnescape value with
        | None => m
        | Some value => <[key := (default [] (m !! key) ++ [value])%list]> m
        end
    end.

(** The loop cuts the query at each [&] until nothing is left; the pieces
    are those of [Split], whose extra empty last piece the loop would skip. *)
Definition ParseQuery (query : string) : Values :=
  foldl parse_piece ∅ (Split "&" query).

Definition Values_Get (v : Values) (key : string) : string :=
  match v !! key with
  | Some (first :: _) => first
  | _ => EmptyString
  end.

Definition Values_Set (v : Values) (key value : string) : Values :=
  <[key := [value]]> v.

Fixpoint insert_sorted (k : string) (ks : list string) : list string :=
  match ks with
  | [] => [k]
  | k' :: ks' => if String.leb k k' then k :: ks else k' :: insert_sorted k ks'
  end.

(** [slices.Sort] on the keys: ascending byte order. *)
Definition sort_keys (ks : list string) : list string :=
  foldr insert_sorted [] ks.

Definition Values_Encode (v : Values) : string :=
  String.concat "&"
    (k ← sort_keys (map_to_list v).*1;
     (fun value => QueryEscape k +:+ "=" +:+ QueryEscape value)
       <$> default [] (v !! k)).

(** The fields of [url.URL]. *)
Record URL : Type := mkURL {
  Scheme : string;
  Opaque : string;
  User : option (string * option string);
  Host : string;
  Path : string;
  RawPath : string;
  OmitHost : bool;
  ForceQuery : bool;
  RawQuery : string;
  Fragment : string;
  RawFragment : string
}.

(** [u.RawQuery = q] *)
Definition set_RawQuery (u : URL) (q : string) : URL :=
  mkURL (Scheme u) (Opaque u) (User u) (Host u) (Path u) (RawPath u)
        (OmitHost u) (ForceQuery u) q (Fragment u) (RawFragment u).

Definition URL_Query (u : URL) : Values := ParseQuery (RawQuery u).

(** *** fmt.Sprintf with string operands *)

Section Fmt.

(** [%s] prints its operand as it is and [%%] a percent sign; a [%s] with no
    operand left prints [%!s(MISSING)], a format ending in [%] prints
    [%!(NOVERB)], and operands left over are listed in a [%!(EXTRA ...)]
    suffix.  Every other directive (flags, widths, other verbs) is outside
    this model: [other_directive] stands for what fmt prints from there on. *)
Variable other_directive : string -> list string -> string.

Definition extra (operands : list string) : string :=
  match operands with
  | [] => EmptyString
  | _ =>
      "%!(EXTRA " +:+
      String.concat ", " ((fun a => "string=" +:+ a) <$> operands) +:+ ")"
  end.

Fixpoint Sprintf (format : string) (operands : list string) : string :=
  match format with
  | EmptyString => extra operands
  | String "%" rest =>
      match rest with
      | EmptyString => "%!(NOVERB)" +:+ extra operands
      | String "s" rest' =>
          match operands with
          | a :: operands' => a +:+ Sprintf rest' operands'
          | [] => "%!s(MISSING)" +:+ Sprintf rest' []
          end
      | String "%" rest' => String "%" (Sprintf rest' operands)
      | _ => other_directive rest operands
      end
  | String ch rest => String ch (Sprintf rest operands)
  end.

End Fmt.

(** A collaborator's [(value, error)] handed on as the caller's own. *)
Definition returned {A} (r : result A) : outcome A :=
  match r with
  | Ok a => Return a
  | Err e => Error e
  end.

(** One [key=value] piece as [Values_Encode] writes it, and the pieces it
    writes for the keys [ks], in that order. *)
Definition pair_of (k x : string) : string :=
  QueryEscape k +:+ "=" +:+ QueryEscape x.

Definition pieces (v : Values) (ks : list string) : list string :=
  k ← ks; pair_of k <$> default [] (v !! k).

(** Every key of the values has at least one value. *)
Definition inhabited (v : Values) : Prop :=
  forall k xs, v !! k = Some xs -> xs <> [].

End Go.

(** ** The plugin entry point: handlers over the shared [clientMap] *)

Module Plugin.
Import Go.
Local Open Scope go_scope.

Section Handlers.

(** [clients.Client] and [clients.Rows] are interfaces of the [clients]
    package; their implementations are taken as parameters, and so is
    [BufferOutput_Set bufnr rows], which stands for
    [output.NewBufferOutput(v, bufnr).Set(rows)] on the editor handle [v]
    every handler receives. *)
Context {Client Rows : Type}.
Variable NewPostgres : string -> result Client.
Variable NewRedis : string -> result Client.
Variable Client_Execute : Client -> string -> result Rows.
Variable Client_Schema : Client -> result (gmap string (list string)).
Variable BufferOutput_Set : Z -> Rows -> option error.

(** Calls that leave the handlers, in program order. *)
Inductive event : Type :=
| log_Print (text : string)
| call_NewPostgres (url : string)
| call_NewRedis (url : string)
| call_Execute (c : Client) (query : string)
| call_Schema (c : Client)
| call_Set (bufnr : Z) (rows : Rows)
| call_Close (c : Client).

(** The variables the handler closures share: the map created in [main],
    and the calls made so far. *)
Record state : Type := mkState {
  clientMap : gmap string Client;
  trace : list event
}.

Definition emit (e : event) : M state unit :=
  modify (fun s => mkState (clientMap s) (trace s ++ [e])%list).

(** [clientMap[id] = client] *)
Definition store (id : string) (client : Client) : M state unit :=
  modify (fun s => mkState (<[id := client]> (clientMap s)) (trace s)).

(** [client, ok := clientMap[id]] *)
Definition load (id : string) : M state (option Client) :=
  s <- get ;; ret (clientMap s !! id).

Definition unsupported_format : string :=
  "database of type " +:+ String "034" "%s" +:+ String "034" " is not supported".

Definition Dbee_register_client (args : list string) : M state unit :=
  emit (log_Print "calling Dbee_register_client") ;;;
  if (length args <? 3)%nat then
    throw (errors_New "not enough arguments passed to Dbee_register_client")
  else
    id <- index args 0 ;;
    url <- index args 1 ;;
    typ <- index args 2 ;;
    client <-
      (if String.eqb typ "postgres" then
         emit (call_NewPostgres url) ;;; try (NewPostgres url)
       else if String.eqb typ "redis" then
         emit (call_NewRedis url) ;;; try (NewRedis url)
       else throw (fmt_Errorf unsupported_format [of_string typ])) ;;
    store id client.

Definition not_registered (id : string) : error :=
  fmt_Errorf "client with id %s not registered" [of_string id].

Definition Dbee_execute (args : list string) : M state unit :=
  emit (log_Print "calling Dbee_execute") ;;;
  if (length args <? 2)%nat then
    throw (errors_New "not enough arguments passed to Dbee_execute")
  else
    id <- index args 0 ;;
    query <- index args 1 ;;
    a2 <- index args 2 ;;
    bufnr <- try (Atoi a2) ;;
    found <- load id ;;
    match found with
    | None => throw (not_registered id)
    | Some client =>
        emit (call_Execute client query) ;;;
        rows <- try (Client_Execute client query) ;;
        emit (call_Set bufnr rows) ;;;
        match BufferOutput_Set bufnr rows with
        | Some err => throw err
        | None => ret tt
        end
    end.

Definition Dbee_get_schema (args : list string)
  : M state (gmap string (list string)) :=
  emit (log_Print "calling Dbee_get_schema") ;;;
  if (length args <? 1)%nat then
    throw (errors_New "not enough arguments passed to Dbee_get_schema")
  else
    id <- index args 0 ;;
    found <- load id ;;
    match found with
    | None => throw (not_registered id)
    | Some client =>
        emit (call_Schema client) ;;;
        try (Client_Schema client)
    end.

(** The deferred sweep of [main]: [Close] on every registered client (Go
    leaves the iteration order of a map unspecified). *)
Definition close_all : M state unit :=
  s <- get ;;
  foldr (fun kc k => emit (call_Close kc.2) ;;; k) (ret tt)
        (map_to_list (clientMap s)).

Definition is_query (e : event) : bool :=
  match e with
  | call_Execute _ _ | call_Schema _ => true
  | _ => false
  end.

Definition is_close (e : event) : bool :=
  match e with
  | call_Close _ => true
  | _ => false
  end.

(** The trace of [s'] is the one of [s] followed by calls that all satisfy
    [allowed]. *)
Definition only_calls (allowed : event -> bool) (s s' : state) : Prop :=
  exists calls, trace s' = (trace s ++ calls)%list /\ forallb allowed calls = true.

(** The map of [s'] is the one of [s]. *)
Definition untouched (s s' : state) : Prop := clientMap s' = clientMap s.

(** The state after a handler has only logged its name. *)
Definition logged (s : state) (text : string) : state :=
  mkState (clientMap s) (trace s ++ [log_Print text])%list.

(** One request of the host: [plugin.Main] hands it to the handler
    registered under that name. *)
Inductive request : Type :=
| register_request (args : list string)
| execute_request (args : list string)
| schema_request (args : list string).

Definition serve (r : request) (s : state) : state :=
  match r with
  | register_request args => snd (Dbee_register_client args s)
  | execute_request args => snd (Dbee_execute args s)
  | schema_request args => snd (Dbee_get_schema args s)
  end.

(** Requests served one after the other on the shared map (a request that
    panics ends there; the map it leaves is the one later requests see). *)
Definition session (requests : list request) (s : state) : state :=
  foldl (fun s r => serve r s) s requests.

(** [client] is what one of the two constructors returned for a [url] the
    trace shows it was called with. *)
Definition constructed (s : state) (client : Client) : Prop :=
  exists url,
    (NewPostgres url = Ok client /\ call_NewPostgres url ∈ trace s)
    \/ (NewRedis url = Ok client /\ call_NewRedis url ∈ trace s).

(** [m] relates the state it starts from to the state it ends in by [R],
    whatever it returns. *)
Definition keeps {A} (R : state -> state -> Prop) (m : M state A) : Prop :=
  forall s, R s (snd (m s)).

End Handlers.

End Plugin.

(** ** The Databricks adapter and its driver *)

Module Adapters.
Import Go.
Local Open Scope go_scope.

(** [core.StructureType]. *)
Inductive StructureType : Type :=
| StructureTypeNone
| StructureTypeTable
| StructureTypeView
| StructureTypeMaterializedView
| StructureTypeStreamingTable
| StructureTypeManaged.

(** [core.TableOptions], by the fields the adapter reads. *)
Record TableOptions : Type := mkTableOptions {
  Schema : string;
  Table : string
}.

(** A [switch] on a string compares with each case in turn. *)
Definition getDatabricksStructureType (typ : string) : StructureType :=
  if String.eqb typ "TABLE" || String.eqb typ "BASE TABLE"
     || String.eqb typ "SYSTEM TABLE" then StructureTypeTable
  else if String.eqb typ "VIEW" || String.eqb typ "SYSTEM VIEW" then
    StructureTypeView
  else if String.eqb typ "MATERIALIZED_VIEW" then StructureTypeMaterializedView
  else if String.eqb typ "STREAMING_TABLE" then StructureTypeStreamingTable
  else if String.eqb typ "MANAGED" then StructureTypeManaged
  else StructureTypeNone.

Definition newline : string := String "010" "".
Definition tab : string := String "009" "".

Definition list_format : string := "SELECT * FROM %s.%s LIMIT 100;".

Definition columns_format : string :=
  newline +:+ "SELECT *" +:+
  newline +:+ "FROM information_schema.column" +:+
  newline +:+ "WHERE table_schema = '%s' " +:+
  newline +:+ tab +:+ "AND table_name = '%s';".

Section Databricks.

(** [sql.DB], [sql.Open], [url.Parse], [URL.String], the query call of
    the client and fmt's remaining directives come from outside the two
    files. *)
Context {DB : Type}.
Variable sql_Open : string -> string -> result DB.
Variable url_Parse : string -> result URL.
Variable URL_String : URL -> string.
Variable other_directive : string -> list string -> string.

(** Modelled from the spec: [core.ResultStream] ("has more", "produce next
    Row or fail") is an interface declared outside the two files; a stream
    is the finite sequence of what its successive [Next] calls return. *)
Definition ResultStream : Type := list (result (list any)).

Variable QueryUntilNotEmpty : DB -> string -> result ResultStream.

(** Modelled from the spec: [builders.Client] is declared outside the two
    files; it "owns the live low-level connection handle" and "holds a
    mutable connection pointer so that catalog-switch operations can
    replace the handle". *)
Record Client : Type := mkClient { db : DB }.

Definition NewClient (handle : DB) : Client := mkClient handle.

Record databricksDriver : Type := mkDriver {
  c : Client;
  connectionURL : URL;
  currentCatalog : string
}.

(** Calls that leave the driver, in program order. *)
Inductive event : Type :=
| call_sql_Open (driverName dataSourceName : string)
| call_Query (handle : DB) (query : string)
| call_Swap (handle : DB)
| close_handle (handle : DB).

(** A driver is used through a pointer, and so are its client and its URL;
    no other object holds them, hence the driver is one value in the state
    the methods update. *)
Record state : Type := mkState {
  self : databricksDriver;
  trace : list event
}.

Definition emit (e : event) : M state unit :=
  modify (fun s => mkState (self s) (trace s ++ [e])%list).

Definition update (f : databricksDriver -> databricksDriver) : M state unit :=
  modify (fun s => mkState (f (self s)) (trace s)).

Definition this : M state databricksDriver := s <- get ;; ret (self s).

(** Modelled from the spec: [Client.Swap] is declared outside the two
    files; it replaces "the Client's live handle", and "close of the
    previous handle is the Client's responsibility, performed after the
    swap". *)
Definition Client_Swap (handle : DB) : M state unit :=
  d <- this ;;
  emit (call_Swap handle) ;;;
  update (fun d => mkDriver (mkClient handle) (connectionURL d) (currentCatalog d)) ;;;
  emit (close_handle (db (c d))).

Definition Connect (connection : string) : result databricksDriver :=
  match url_Parse connection with
  | Err err =>
      Err (fmt_Errorf "failed to parse connection string: %w: " [of_error err])
  | Ok u =>
      match sql_Open "databricks" (URL_String u) with
      | Err err =>
          Err (fmt_Errorf "unable to connect to databricks: %w" [of_error err])
      | Ok handle =>
          let catalog := Values_Get (URL_Query u) "catalog" in
          if String.eqb catalog "" then
            Err (fmt_Errorf "required parameter '?catalog=<catalog>' is missing" [])
          else Ok (mkDriver (NewClient handle) u catalog)
      end
  end.

(** A Go map literal with two keys. *)
Definition GetHelpers (opts : TableOptions) : gmap string string :=
  let list := Sprintf other_directive list_format [Schema opts; Table opts] in
  let columns :=
    Sprintf other_directive columns_format [Schema opts; Table opts] in
  <["Columns" := columns]> (<["List" := list]> ∅).

Definition Query (query : string) : M state ResultStream :=
  d <- this ;;
  emit (call_Query (db (c d)) query) ;;;
  try (QueryUntilNotEmpty (db (c d)) query).

(** The loop of [ListDatabases] over the rows still to come. *)
Fixpoint catalogs (rows : ResultStream) (available : list string)
  : M state (list string) :=
  match rows with
  | [] => ret available
  | next :: rows' =>
      row <- try next ;;
      cell <- index row 0 ;;
      match cell with
      | any_string catalog => catalogs rows' (available ++ [catalog])%list
      | _ => throw (fmt_Errorf "expected string, got %T" [of_any cell])
      end
  end.

Definition ListDatabases : M state (string * list string) :=
  rows <- Query "SHOW CATALOGS;" ;;
  available <- catalogs rows [] ;;
  d <- this ;;
  ret (currentCatalog d, available).

Definition SelectDatabase (name : string) : M state unit :=
  d <- this ;;
  let q := URL_Query (connectionURL d) in
  let q := Values_Set q "catalog" name in
  update (fun d => mkDriver (c d) (set_RawQuery (connectionURL d) (Values_Encode q))
                            (currentCatalog d)) ;;;
  d <- this ;;
  emit (call_sql_Open "databricks" (URL_String (connectionURL d))) ;;;
  match sql_Open "databricks" (URL_String (connectionURL d)) with
  | Err err => throw (fmt_Errorf "error switching catalog: %w" [of_error err])
  | Ok handle =>
      update (fun d => mkDriver (c d) (connectionURL d) name) ;;;
      Client_Swap handle
  end.

(** The URL the first three statements of [SelectDatabase] leave in the
    driver: the old one with [catalog] set to [name] and the query encoded
    again. *)
Definition switched (name : string) (u : URL) : URL :=
  set_RawQuery u (Values_Encode (Values_Set (URL_Query u) "catalog" name)).

(** A stream that yields one row per catalog name. *)
Definition catalog_rows (names : list string) : ResultStream :=
  (fun name => Ok [any_string name]) <$> names.

(** The [catalog] parameter as [Connect] reads it from a URL. *)
Definition catalog_parameter (u : URL) : string :=
  Values_Get (URL_Query u) "catalog".

(** [core.Structure] and [core.GetGenericStructure] come from outside the
    two files. *)
Context {StructureNode : Type}.
Variable GetGenericStructure :
  ResultStream -> (string -> StructureType) -> result (list StructureNode).

Definition catalog_format : string :=
  newline +:+ "SELECT table_schema, table_name, table_type" +:+
  newline +:+ "FROM system.information_schema.tables" +:+
  newline +:+ "WHERE table_catalog = '%s';" +:+
  newline.

Definition Structure : M state (list StructureNode) :=
  d <- this ;;
  let catalogQuery := Sprintf other_directive catalog_format [currentCatalog d] in
  rows <- Query catalogQuery ;;
  try (GetGenericStructure rows getDatabricksStructureType).

(** The rows of a stream that [ListDatabases] accepts, with the catalog
    name each one yields: [Next] succeeds and the first cell is a string. *)
Definition names_catalog (next : result (list any)) (name : string) : Prop :=
  exists cells, next = Ok (any_string name :: cells).

End Databricks.

End Adapters.

(** ** Stand-ins for the collaborators, to run the handlers and the driver *)

Module Doubles.
Import Go.

(** A client is named after the call that made it; an empty address is
    refused. *)
Definition NewPostgres (url : string) : result string :=
  if String.eqb url "" then Err (foreign_error "postgres: empty address")
  else Ok ("postgres client for " +:+ url).

Definition NewRedis (url : string) : result string :=
  if String.eqb url "" then Err (foreign_error "redis: empty address")
  else Ok ("redis client for " +:+ url).

Definition Client_Execute (client query : string) : result (list string) :=
  Ok [query].

Definition Client_Schema (client : string) : result Values :=
  Ok {[ "public" := ["users"] ]}.

Definition BufferOutput_Set (bufnr : Z) (rows : list string) : option error :=
  None.

(** A DSN [token:...@host/path?query] as [url.Parse] reads it: scheme
    [token], the rest up to [?] opaque, and the raw query. *)
Definition url_Parse (connection : string) : result URL :=
  let (front, query) := Cut "?" connection in
  let (scheme, opaque) := Cut ":" front in
  if String.eqb scheme "token" then
    Ok (mkURL scheme opaque None "" "" "" false false query "" "")
  else Err (foreign_error "parse: not a token DSN").

Definition URL_String (u : URL) : string :=
  Scheme u +:+ ":" +:+ Opaque u +:+
  (if String.eqb (RawQuery u) "" then "" else "?" +:+ RawQuery u).

(** A handle is the data source name it was opened with; the catalog
    [offline] cannot be opened. *)
Definition sql_Open (driverName dataSourceName : string) : result string :=
  if negb (String.eqb driverName "databricks") then
    Err (foreign_error "sql: unknown driver")
  else if String.eqb (Values_Get (ParseQuery (snd (Cut "?" dataSourceName))) "catalog")
                     "offline" then
    Err (foreign_error "databricks: invalid DSN")
  else Ok dataSourceName.

Definition QueryUntilNotEmpty (handle query : string)
  : result Adapters.ResultStream :=
  if String.eqb query "SHOW CATALOGS;" then
    Ok (Adapters.catalog_rows ["main"; "samples"])
  else Err (foreign_error "databricks: unexpected query").

Definition other_directive (rest : string) (operands : list string) : string :=
  "".

(** Registries to start from: an empty one, and one that binds [c1]. *)
Definition empty_state : @Plugin.state string (list string) :=
  Plugin.mkState ∅ [].

Definition one_client : @Plugin.state string (list string) :=
  Plugin.mkState {[ "c1" := "postgres client for localhost" ]} [].

Definition warehouse : string := "dapi123@adb.example.net:443/sql/1.0/warehouses/w1".

Definition main_dsn : string := "token:" +:+ warehouse +:+ "?catalog=main".

Definition with_query (query : string) : URL :=
  mkURL "token" warehouse None "" "" "" false false query "" "".

(** The driver [Connect] returns for [main_dsn]. *)
Definition connected : @Adapters.databricksDriver string :=
  Adapters.mkDriver (Adapters.mkClient main_dsn) (with_query "catalog=main") "main".

(** An extractor that keeps the object names of the rows, and a query call
    that answers the catalog query of [Structure] for [main] only. *)
Definition GetGenericStructure (rows : Adapters.ResultStream)
    (classify : string -> Adapters.StructureType) : result (list string) :=
  Ok (omap (fun next => match next with
                        | Ok (_ :: any_string name :: _) => Some name
                        | _ => None
                        end) rows).

Definition tables_of_main : string :=
  Sprintf other_directive Adapters.catalog_format ["main"].

Definition QueryTables (handle query : string) : result Adapters.ResultStream :=
  if String.eqb query tables_of_main then
    Ok [Ok [any_string "public"; any_string "users"; any_string "TABLE"]]
  else Err (foreign_error "databricks: catalog not found").

(** A catalog listing whose second row is broken in the way the handle
    names: the stream fails, the row has no cell, or its cell is a number. *)
Definition broken_row (handle : string) : result (list any) :=
  if String.eqb handle "lost" then Err (foreign_error "rows: connection lost")
  else if String.eqb handle "bare" then Ok []
  else Ok [any_int64 7; any_string "x"].

Definition QueryBroken (handle query : string) : result Adapters.ResultStream :=
  Ok ([Ok [any_string "main"; any_string "note"]]
        ++ broken_row handle :: [Ok [any_string "samples"]])%list.

Definition driver_on (handle : string) : @Adapters.state string :=
  Adapters.mkState
    (Adapters.mkDriver (Adapters.mkClient handle) (with_query "catalog=main") "main")
    [].

End Doubles.

(** ** Properties of the plugin handlers *)

Module PluginSpec.
Import Go Plugin.

Ltac run :=
  cbv [Dbee_register_client Dbee_execute Dbee_get_schema
       bind ret throw raise get modify try index emit store load];
  simpl.

Section Spec.

Context {Client Rows : Type}.
Variable NewPostgres : string -> result Client.
Variable NewRedis : string -> result Client.
Variable Client_Execute : Client -> string -> result Rows.
Variable Client_Schema : Client -> result Values.
Variable BufferOutput_Set : Z -> Rows -> option error.

Local Abbreviation state := (@state Client Rows).
Local Abbreviation register := (Dbee_register_client NewPostgres NewRedis).
Local Abbreviation execute := (Dbee_execute Client_Execute BufferOutput_Set).
Local Abbreviation get_schema := (Dbee_get_schema Client_Schema).

Lemma logged_untouched (s : state) text : untouched s (logged s text).
Proof. reflexivity. Qed.

Lemma logged_only_calls (s : state) text allowed :
  allowed (log_Print text) = true -> only_calls allowed s (logged s text).
Proof. intros H. exists [log_Print text]. simpl. by rewrite H. Qed.

(** Whatever the arguments, [Dbee_execute] with an id that is not in the
    map stops before it reaches a client. *)
Lemma execute_absent_quiet (s : state) id args :
  args !! 0 = Some id -> clientMap s !! id = None ->
  snd (execute args s) = logged s "calling Dbee_execute".
Proof.
  intros Hid Hs.
  destruct args as [|id' [|query [|b rest]]]; simplify_eq/=; try reflexivity.
  run. destruct (Atoi b); simpl; [|reflexivity].
  by rewrite Hs.
Qed.

Lemma get_schema_absent (s : state) id rest :
  clientMap s !! id = None ->
  get_schema (id :: rest) s
  = (Error (not_registered id), logged s "calling Dbee_get_schema").
Proof. intros Hs. run. by rewrite Hs. Qed.

Lemma execute_absent (s : state) id query b bufnr rest :
  clientMap s !! id = None -> Atoi b = Ok bufnr ->
  execute (id :: query :: b :: rest) s
  = (Error (not_registered id), logged s "calling Dbee_execute").
Proof. intros Hs Hb. run. rewrite Hb. simpl. by rewrite Hs. Qed.

(** C5 (the code at the input that breaks it): with exactly two arguments
    the guard [len(args) < 2] lets the call through, and reading [args[2]]
    panics with an index out of range. *)
Theorem Dbee_execute_two_arguments_panic (s : state) (id query : string) :
  execute [id; query] s
  = (Panic (index_out_of_range 2 2), logged s "calling Dbee_execute").
Proof. reflexivity. Qed.

(** C6: a register call whose type is neither [postgres] nor [redis]
    returns the unsupported-type error; no client is constructed and the
    map is left as it was. *)
Theorem Dbee_register_client_unsupported
    (s : state) (id url typ : string) (rest : list string) :
  typ <> "postgres" -> typ <> "redis" ->
  register (id :: url :: typ :: rest) s
  = (Error (fmt_Errorf unsupported_format [of_string typ]),
     logged s "calling Dbee_register_client")
  /\ untouched s (snd (register (id :: url :: typ :: rest) s))
  /\ clientMap (snd (register (id :: url :: typ :: rest) s)) !! id
     = clientMap s !! id.
Proof.
  intros Hp Hr.
  apply String.eqb_neq in Hp, Hr.
  assert (register (id :: url :: typ :: rest) s
          = (Error (fmt_Errorf unsupported_format [of_string typ]),
             logged s "calling Dbee_register_client")) as ->.
  { run. rewrite Hp, Hr. reflexivity. }
  by repeat split.
Qed.

(** C7, amended: for an id that is not in the map, [Dbee_get_schema] fails
    with the not-registered error, and so does [Dbee_execute] when its third
    argument reads as an integer; whatever the arguments, the call with such
    an id reaches no client and leaves the map as it was. *)
Theorem absent_id_not_registered (s : state) (id : string) :
  clientMap s !! id = None ->
  (forall rest,
     fst (get_schema (id :: rest) s) = Error (not_registered id))
  /\ (forall query b bufnr rest,
        Atoi b = Ok bufnr ->
        fst (execute (id :: query :: b :: rest) s) = Error (not_registered id))
  /\ (forall args,
        args !! 0 = Some id ->
        untouched s (snd (execute args s))
        /\ only_calls (fun e => negb (is_query e)) s (snd (execute args s))
        /\ untouched s (snd (get_schema args s))
        /\ only_calls (fun e => negb (is_query e)) s (snd (get_schema args s))).
Proof.
  intros Hs. split; [|split].
  - intros rest. by rewrite get_schema_absent.
  - intros query b bufnr rest Hb. by rewrite (execute_absent _ _ _ _ bufnr).
  - intros args Hid.
    rewrite (execute_absent_quiet s id args Hid Hs).
    destruct args as [|id' rest]; simplify_eq/=.
    rewrite get_schema_absent by done. simpl.
    repeat split; auto using logged_only_calls.
Qed.

(** C9: a register call that succeeds for an id already in the map leaves
    the id bound to the client just constructed, replacing the old binding;
    the call closes no client. *)
Theorem Dbee_register_client_replaces
    (s s' : state) (args : list string) (id : string) (old : Client) :
  args !! 0 = Some id ->
  clientMap s !! id = Some old ->
  register args s = (Return tt, s') ->
  exists url client,
    args !! 1 = Some url
    /\ (args !! 2 = Some "postgres" /\ NewPostgres url = Ok client
        \/ args !! 2 = Some "redis" /\ NewRedis url = Ok client)
    /\ clientMap s' = <[id := client]> (clientMap s)
    /\ clientMap s' !! id = Some client
    /\ only_calls (fun e => negb (is_close e)) s s'.
Proof.
  intros Hid Hold.
  destruct args as [|id' [|url [|typ rest]]]; simplify_eq/=; try discriminate.
  run.
  destruct (String.eqb typ "postgres") eqn:Hp; simpl.
  - apply String.eqb_eq in Hp as ->.
    destruct (NewPostgres url) as [client|] eqn:Hnew; simpl; [|discriminate].
    intros [= <-]. exists url, client. simpl.
    rewrite lookup_insert_eq. repeat split; auto.
    exists [log_Print "calling Dbee_register_client"; call_NewPostgres url].
    by rewrite <- app_assoc.
  - destruct (String.eqb typ "redis") eqn:Hr; simpl; [|discriminate].
    apply String.eqb_eq in Hr as ->.
    destruct (NewRedis url) as [client|] eqn:Hnew; simpl; [|discriminate].
    intros [= <-]. exists url, client. simpl.
    rewrite lookup_insert_eq. repeat split; auto.
    exists [log_Print "calling Dbee_register_client"; call_NewRedis url].
    by rewrite <- app_assoc.
Qed.

End Spec.

(** *** The handlers run on the stand-in clients *)

Import Doubles.

Abbreviation register := (Dbee_register_client Doubles.NewPostgres Doubles.NewRedis).
Abbreviation execute :=
  (Dbee_execute Doubles.Client_Execute Doubles.BufferOutput_Set).
Abbreviation get_schema := (Dbee_get_schema Doubles.Client_Schema).

Lemma Dbee_register_client_unsupported_run :
  "mysql" <> "postgres" /\ "mysql" <> "redis"
  /\ register ["c1"; "mysql://localhost"; "mysql"] one_client
     = (Error (fmt_Errorf unsupported_format [of_string "mysql"]),
        logged one_client "calling Dbee_register_client")
  /\ clientMap (snd (register ["c1"; "mysql://localhost"; "mysql"] one_client))
       !! "c1"
     = Some "postgres client for localhost".
Proof.
  assert ("mysql" <> "postgres") as Hp by discriminate.
  assert ("mysql" <> "redis") as Hr by discriminate.
  destruct (Dbee_register_client_unsupported Doubles.NewPostgres Doubles.NewRedis
              one_client "c1" "mysql://localhost" "mysql" [] Hp Hr)
    as (Hrun & _ & Hid).
  split; [exact Hp|]. split; [exact Hr|]. split; [exact Hrun|].
  rewrite Hid. reflexivity.
Defined.

(** C7 as stated fails here: the id is not registered, yet the error is the
    one of [strconv.Atoi] on the third argument, returned before the map is
    read. *)
Lemma Dbee_execute_absent_id_bad_buffer :
  clientMap empty_state !! "ghost" = None
  /\ fst (execute ["ghost"; "select 1"; "abc"] empty_state)
     = Error (NumError "Atoi" "abc" ErrSyntax)
  /\ fst (execute ["ghost"; "select 1"; "abc"] empty_state)
     <> Error (not_registered "ghost").
Proof. split; [reflexivity|]. split; [reflexivity|discriminate]. Qed.

Lemma absent_id_not_registered_run :
  clientMap empty_state !! "ghost" = None
  /\ fst (get_schema ["ghost"] empty_state) = Error (not_registered "ghost")
  /\ Atoi "7" = Ok 7%Z
  /\ fst (execute ["ghost"; "select 1"; "7"] empty_state)
     = Error (not_registered "ghost")
  /\ untouched empty_state (snd (execute ["ghost"; "select 1"; "abc"] empty_state)).
Proof.
  assert (clientMap empty_state !! "ghost" = None) as Habsent by reflexivity.
  destruct (absent_id_not_registered Doubles.Client_Execute Doubles.Client_Schema
              Doubles.BufferOutput_Set empty_state "ghost" Habsent)
    as (Hschema & Hexecute & Hquiet).
  split; [exact Habsent|]. split; [apply Hschema|].
  split; [reflexivity|]. split.
  - apply (Hexecute "select 1" "7" 7%Z []). reflexivity.
  - apply (Hquiet ["ghost"; "select 1"; "abc"]). reflexivity.
Defined.

Lemma Dbee_register_client_replaces_run :
  let s' :=
    mkState {[ "c1" := "redis client for localhost" ]}
            [log_Print "calling Dbee_register_client"; call_NewRedis "localhost"] in
  clientMap one_client !! "c1" = Some "postgres client for localhost"
  /\ register ["c1"; "localhost"; "redis"] one_client = (Return tt, s')
  /\ exists url client,
       ["c1"; "localhost"; "redis"] !! 1 = Some url
       /\ (["c1"; "localhost"; "redis"] !! 2 = Some "postgres"
           /\ Doubles.NewPostgres url = Ok client
           \/ ["c1"; "localhost"; "redis"] !! 2 = Some "redis"
              /\ Doubles.NewRedis url = Ok client)
       /\ clientMap s' = <["c1" := client]> (clientMap one_client)
       /\ clientMap s' !! "c1" = Some client
       /\ only_calls (fun e => negb (is_close e)) one_client s'.
Proof.
  intros s'.
  assert (clientMap one_client !! "c1" = Some "postgres client for localhost")
    as Hold by reflexivity.
  assert (register ["c1"; "localhost"; "redis"] one_client = (Return tt, s'))
    as Hrun by reflexivity.
  split; [exact Hold|]. split; [exact Hrun|].
  exact (Dbee_register_client_replaces Doubles.NewPostgres Doubles.NewRedis
           one_client s' ["c1"; "localhost"; "redis"] "c1"
           "postgres client for localhost" eq_refl Hold Hrun).
Defined.

End PluginSpec.

(** ** Properties of the Databricks adapter and driver *)

Module AdaptersSpec.
Import Go Adapters.

Ltac run :=
  cbv [SelectDatabase ListDatabases Query Client_Swap this update emit
       bind ret throw raise get modify try index];
  simpl.

Section Spec.

Context {DB : Type}.
Variable sql_Open : string -> string -> result DB.
Variable url_Parse : string -> result URL.
Variable URL_String : URL -> string.
Variable other_directive : string -> list string -> string.
Variable QueryUntilNotEmpty : DB -> string -> result ResultStream.

Local Abbreviation state := (@state DB).
Local Abbreviation SelectDatabase := (SelectDatabase sql_Open URL_String).
Local Abbreviation ListDatabases := (ListDatabases QueryUntilNotEmpty).
Local Abbreviation Connect := (Connect sql_Open url_Parse URL_String).
Local Abbreviation GetHelpers := (GetHelpers other_directive).

(** The data source name [SelectDatabase name] opens. *)
Local Abbreviation target name s :=
  (URL_String (switched name (connectionURL (self s)))).

(** The loop of [ListDatabases] does not write to the driver. *)
Lemma catalogs_state (rows : ResultStream) available (s : state) :
  snd (catalogs rows available s) = s.
Proof.
  revert available. induction rows as [|next rows IH]; intros available.
  - reflexivity.
  - simpl. destruct next as [row|err]; [|reflexivity].
    destruct row as [|cell row]; [reflexivity|].
    destruct cell; try reflexivity.
    cbv [bind try ret index]. simpl. apply IH.
Qed.

Lemma catalogs_catalog_rows names available (s : state) :
  catalogs (catalog_rows names) available s = (Return (available ++ names)%list, s).
Proof.
  revert available. induction names as [|name names IH]; intros available.
  - simpl. by rewrite app_nil_r.
  - simpl. cbv [bind try ret index]. simpl. rewrite IH.
    by rewrite <- app_assoc.
Qed.

(** Whenever [ListDatabases] returns, its first result is the driver's
    current catalog. *)
Lemma ListDatabases_current (s : state) current available :
  fst (ListDatabases s) = Return (current, available) ->
  current = currentCatalog (self s).
Proof.
  run. destruct (QueryUntilNotEmpty _ _) as [rows|err]; simpl; [|discriminate].
  pose proof (catalogs_state rows []
    (mkState (self s) (trace s ++ [call_Query (db (c (self s))) "SHOW CATALOGS;"])))
    as Hst.
  destruct (catalogs rows [] _) as [[names|e|p] s1]; simpl in *;
    try discriminate.
  subst s1. simpl. by intros [= <- _].
Qed.

Lemma ListDatabases_catalog_rows (s : state) names :
  QueryUntilNotEmpty (db (c (self s))) "SHOW CATALOGS;" = Ok (catalog_rows names) ->
  fst (ListDatabases s) = Return (currentCatalog (self s), names).
Proof.
  intros Hq. run. rewrite Hq. simpl.
  by rewrite catalogs_catalog_rows.
Qed.

Lemma SelectDatabase_opened (s : state) name handle :
  sql_Open "databricks" (target name s) = Ok handle ->
  SelectDatabase name s
  = (Return tt,
     mkState (mkDriver (mkClient handle)
                       (switched name (connectionURL (self s))) name)
             (trace s ++ [call_sql_Open "databricks" (target name s);
                          call_Swap handle;
                          close_handle (db (c (self s)))])).
Proof.
  intros Hopen. run. unfold switched in Hopen. rewrite Hopen. simpl.
  by rewrite <- !app_assoc.
Qed.

(** What a failed open leaves behind: the driver keeps its client and its
    current catalog, and its URL is the rewritten one. *)
Lemma SelectDatabase_refused (s : state) name err :
  sql_Open "databricks" (target name s) = Err err ->
  SelectDatabase name s
  = (Error (fmt_Errorf "error switching catalog: %w" [of_error err]),
     mkState (mkDriver (c (self s))
                       (switched name (connectionURL (self s)))
                       (currentCatalog (self s)))
             (trace s ++ [call_sql_Open "databricks" (target name s)])).
Proof. intros Hopen. run. unfold switched in Hopen. by rewrite Hopen. Qed.

(** C2: when the open of the new connection succeeds, [SelectDatabase name]
    returns no error, the current catalog is [name] (and is what a later
    [ListDatabases] reports), and the client holds the new handle; the swap
    is called after the open, with the handle the open returned, and a
    failed open calls no swap and leaves the client's handle in place. *)
Theorem SelectDatabase_switches (s : state) (name : string) :
  let s' := snd (SelectDatabase name s) in
  (forall handle,
     sql_Open "databricks" (target name s) = Ok handle ->
     fst (SelectDatabase name s) = Return tt
     /\ currentCatalog (self s') = name
     /\ db (c (self s')) = handle
     /\ trace s' = (trace s ++ [call_sql_Open "databricks" (target name s);
                                call_Swap handle;
                                close_handle (db (c (self s)))])%list
     /\ (forall current available,
           fst (ListDatabases s') = Return (current, available) ->
           current = name)
     /\ (forall names,
           QueryUntilNotEmpty handle "SHOW CATALOGS;" = Ok (catalog_rows names) ->
           fst (ListDatabases s') = Return (name, names)))
  /\ (forall err,
        sql_Open "databricks" (target name s) = Err err ->
        c (self s') = c (self s)
        /\ trace s' = (trace s ++ [call_sql_Open "databricks" (target name s)])%list).
Proof.
  split.
  - intros handle Hopen.
    rewrite (SelectDatabase_opened s name handle Hopen). simpl.
    repeat split; auto.
    + intros current available Hlist.
      by apply ListDatabases_current in Hlist.
    + intros names Hq. by apply ListDatabases_catalog_rows.
  - intros err Hopen.
    by rewrite (SelectDatabase_refused s name err Hopen).
Qed.

(** C3: [Connect] returns a driver only for a connection string that
    parses and whose [catalog] parameter is not empty; a string whose query
    has no [catalog] parameter, or an empty one, gets an error; and when the
    string parses, has a non-empty [catalog] and the open succeeds, the
    driver returned has that catalog as its current one. *)
Theorem Connect_requires_catalog (connection : string) :
  (forall u,
     url_Parse connection = Ok u ->
     URL_Query u !! "catalog" = None \/ Values_Get (URL_Query u) "catalog" = "" ->
     exists e, Connect connection = Err e)
  /\ (forall u handle,
        url_Parse connection = Ok u ->
        Values_Get (URL_Query u) "catalog" <> "" ->
        sql_Open "databricks" (URL_String u) = Ok handle ->
        Connect connection
        = Ok (mkDriver (NewClient handle) u (Values_Get (URL_Query u) "catalog")))
  /\ (forall d,
        Connect connection = Ok d ->
        currentCatalog d <> ""
        /\ exists u, url_Parse connection = Ok u
                     /\ connectionURL d = u
                     /\ currentCatalog d = Values_Get (URL_Query u) "catalog").
Proof.
  unfold Adapters.Connect. split; [|split].
  - intros u Hu Hcat. rewrite Hu.
    assert (Values_Get (URL_Query u) "catalog" = "") as ->.
    { destruct Hcat as [Hnone|]; [|done]. unfold Values_Get. by rewrite Hnone. }
    destruct (sql_Open _ _); simpl; eauto.
  - intros u handle Hu Hcat Hopen. rewrite Hu, Hopen.
    apply String.eqb_neq in Hcat. by rewrite Hcat.
  - intros d. destruct (url_Parse connection) as [u|]; [|discriminate].
    destruct (sql_Open _ _) as [handle|]; [|discriminate].
    destruct (String.eqb _ "") eqn:Hcat; [discriminate|].
    apply String.eqb_neq in Hcat. intros [= <-]. simpl. eauto.
Qed.

(** C4: the classifier is a total function that sends the eight known kind
    strings to their structure types and any other string to
    [StructureTypeNone]. *)
Theorem getDatabricksStructureType_table (typ : string) :
  (typ ∈ ["TABLE"; "BASE TABLE"; "SYSTEM TABLE"] ->
   getDatabricksStructureType typ = StructureTypeTable)
  /\ (typ ∈ ["VIEW"; "SYSTEM VIEW"] ->
      getDatabricksStructureType typ = StructureTypeView)
  /\ (typ = "MATERIALIZED_VIEW" ->
      getDatabricksStructureType typ = StructureTypeMaterializedView)
  /\ (typ = "STREAMING_TABLE" ->
      getDatabricksStructureType typ = StructureTypeStreamingTable)
  /\ (typ = "MANAGED" ->
      getDatabricksStructureType typ = StructureTypeManaged)
  /\ (typ ∉ ["TABLE"; "BASE TABLE"; "SYSTEM TABLE"; "VIEW"; "SYSTEM VIEW";
             "MATERIALIZED_VIEW"; "STREAMING_TABLE"; "MANAGED"] ->
      getDatabricksStructureType typ = StructureTypeNone).
Proof.
  repeat split.
  - rewrite !elem_of_cons, elem_of_nil. by intros [->|[->|[->|[]]]].
  - rewrite !elem_of_cons, elem_of_nil. by intros [->|[->|[]]].
  - by intros ->.
  - by intros ->.
  - by intros ->.
  - rewrite !not_elem_of_cons. intros Hne.
    unfold getDatabricksStructureType.
    repeat match goal with
           | H : _ /\ _ |- _ => destruct H as [?%String.eqb_neq H]
           end.
    by repeat match goal with
              | H : String.eqb typ _ = false |- _ => rewrite H; clear H
              end.
Qed.

(** C8: the helper map has exactly the labels [List] and [Columns]; each
    value is its template with the schema and table names put in place of
    the two [%s], byte for byte. *)
Theorem GetHelpers_templates (opts : TableOptions) :
  dom (GetHelpers opts) = {["List"; "Columns"]}
  /\ GetHelpers opts !! "List"
     = Some ("SELECT * FROM " +:+ Schema opts +:+ "." +:+ Table opts
             +:+ " LIMIT 100;")
  /\ GetHelpers opts !! "Columns"
     = Some (newline +:+ "SELECT *" +:+
             newline +:+ "FROM information_schema.column" +:+
             newline +:+ "WHERE table_schema = '" +:+ Schema opts +:+ "' " +:+
             newline +:+ tab +:+ "AND table_name = '" +:+ Table opts +:+ "';").
Proof.
  unfold Adapters.GetHelpers. split; [|split].
  - rewrite !dom_insert_L, dom_empty_L. set_solver.
  - rewrite lookup_insert_ne by done. rewrite lookup_insert_eq. reflexivity.
  - rewrite lookup_insert_eq. reflexivity.
Qed.

End Spec.

(** *** The adapter and the driver run on the stand-in collaborators *)

Import Doubles.

Abbreviation Connect :=
  (Adapters.Connect Doubles.sql_Open Doubles.url_Parse Doubles.URL_String).
Abbreviation SelectDatabase :=
  (Adapters.SelectDatabase Doubles.sql_Open Doubles.URL_String).
Abbreviation ListDatabases := (Adapters.ListDatabases Doubles.QueryUntilNotEmpty).

(** C1 (the code at an input that breaks it): the driver comes from
    [Connect]; the open for the catalog [offline] fails and [SelectDatabase]
    returns the wrapped error.  The current catalog and the client are as
    before, but the stored URL is not: its query now names the catalog that
    could not be opened. *)
Theorem SelectDatabase_failure_rewrites_URL :
  let s := mkState connected [] in
  let s' := snd (SelectDatabase "offline" s) in
  Connect main_dsn = Ok connected
  /\ fst (SelectDatabase "offline" s)
     = Error (fmt_Errorf "error switching catalog: %w"
                [of_error (foreign_error "databricks: invalid DSN")])
  /\ currentCatalog (self s') = currentCatalog connected
  /\ c (self s') = c connected
  /\ RawQuery (connectionURL connected) = "catalog=main"
  /\ RawQuery (connectionURL (self s')) = "catalog=offline"
  /\ connectionURL (self s') <> connectionURL connected
  /\ Values_Get (URL_Query (connectionURL (self s'))) "catalog"
     <> currentCatalog (self s').
Proof.
  cbv zeta.
  split; [vm_compute; reflexivity|].
  split; [vm_compute; reflexivity|].
  split; [vm_compute; reflexivity|].
  split; [vm_compute; reflexivity|].
  split; [reflexivity|].
  split; [vm_compute; reflexivity|].
  split; vm_compute; discriminate.
Qed.

Lemma SelectDatabase_switches_run :
  let s := mkState connected [] in
  let s' := snd (SelectDatabase "samples" s) in
  let opened := "token:" +:+ warehouse +:+ "?catalog=samples" in
  Doubles.sql_Open "databricks"
    (Doubles.URL_String (switched "samples" (connectionURL connected)))
  = Ok opened
  /\ Doubles.QueryUntilNotEmpty opened "SHOW CATALOGS;"
     = Ok (catalog_rows ["main"; "samples"])
  /\ fst (SelectDatabase "samples" s) = Return tt
  /\ currentCatalog (self s') = "samples"
  /\ db (c (self s')) = opened
  /\ fst (ListDatabases s') = Return ("samples", ["main"; "samples"])
  /\ Doubles.sql_Open "databricks"
       (Doubles.URL_String (switched "offline" (connectionURL connected)))
     = Err (foreign_error "databricks: invalid DSN")
  /\ c (self (snd (SelectDatabase "offline" s))) = c connected.
Proof.
  intros s s' opened.
  assert (Doubles.sql_Open "databricks"
            (Doubles.URL_String (switched "samples" (connectionURL (self s))))
          = Ok opened) as Hopen by (vm_compute; reflexivity).
  assert (Doubles.QueryUntilNotEmpty opened "SHOW CATALOGS;"
          = Ok (catalog_rows ["main"; "samples"])) as Hquery by reflexivity.
  assert (Doubles.sql_Open "databricks"
            (Doubles.URL_String (switched "offline" (connectionURL (self s))))
          = Err (foreign_error "databricks: invalid DSN"))
    as Hrefused by (vm_compute; reflexivity).
  destruct (SelectDatabase_switches Doubles.sql_Open Doubles.URL_String
              Doubles.QueryUntilNotEmpty s "samples") as [Hok _].
  destruct (Hok opened Hopen) as (Hret & Hcur & Hdb & _ & _ & Hlist).
  destruct (SelectDatabase_switches Doubles.sql_Open Doubles.URL_String
              Doubles.QueryUntilNotEmpty s "offline") as [_ Hfail].
  destruct (Hfail _ Hrefused) as [Hkept _].
  split; [exact Hopen|]. split; [exact Hquery|]. split; [exact Hret|].
  split; [exact Hcur|]. split; [exact Hdb|].
  split; [exact (Hlist _ Hquery)|]. split; [exact Hrefused|exact Hkept].
Defined.

Lemma Connect_requires_catalog_run :
  Doubles.url_Parse ("token:" +:+ warehouse) = Ok (with_query "")
  /\ URL_Query (with_query "") !! "catalog" = None
  /\ (exists e, Connect ("token:" +:+ warehouse) = Err e)
  /\ Doubles.url_Parse main_dsn = Ok (with_query "catalog=main")
  /\ Values_Get (URL_Query (with_query "catalog=main")) "catalog" <> ""
  /\ Doubles.sql_Open "databricks" (Doubles.URL_String (with_query "catalog=main"))
     = Ok main_dsn
  /\ Connect main_dsn
     = Ok (mkDriver (NewClient main_dsn) (with_query "catalog=main")
             (Values_Get (URL_Query (with_query "catalog=main")) "catalog")).
Proof.
  assert (Doubles.url_Parse ("token:" +:+ warehouse) = Ok (with_query ""))
    as Hbare by reflexivity.
  assert (URL_Query (with_query "") !! "catalog" = None) as Hnone by reflexivity.
  assert (Doubles.url_Parse main_dsn = Ok (with_query "catalog=main"))
    as Hmain by reflexivity.
  assert (Values_Get (URL_Query (with_query "catalog=main")) "catalog" <> "")
    as Hcat by (vm_compute; discriminate).
  assert (Doubles.sql_Open "databricks"
            (Doubles.URL_String (with_query "catalog=main")) = Ok main_dsn)
    as Hopen by (vm_compute; reflexivity).
  destruct (Connect_requires_catalog Doubles.sql_Open Doubles.url_Parse
              Doubles.URL_String ("token:" +:+ warehouse)) as (Hmissing & _ & _).
  destruct (Connect_requires_catalog Doubles.sql_Open Doubles.url_Parse
              Doubles.URL_String main_dsn) as (_ & Hgiven & _).
  split; [exact Hbare|]. split; [exact Hnone|].
  split; [exact (Hmissing _ Hbare (or_introl Hnone))|].
  split; [exact Hmain|]. split; [exact Hcat|]. split; [exact Hopen|].
  exact (Hgiven _ _ Hmain Hcat Hopen).
Defined.

Lemma getDatabricksStructureType_table_run :
  getDatabricksStructureType "BASE TABLE" = StructureTypeTable
  /\ getDatabricksStructureType "SYSTEM VIEW" = StructureTypeView
  /\ getDatabricksStructureType "MATERIALIZED_VIEW" = StructureTypeMaterializedView
  /\ getDatabricksStructureType "STREAMING_TABLE" = StructureTypeStreamingTable
  /\ getDatabricksStructureType "MANAGED" = StructureTypeManaged
  /\ getDatabricksStructureType "EXTERNAL" = StructureTypeNone
  /\ getDatabricksStructureType "table" = StructureTypeNone.
Proof.
  split; [apply (getDatabricksStructureType_table "BASE TABLE"); compute_done|].
  split; [apply (getDatabricksStructureType_table "SYSTEM VIEW"); compute_done|].
  split; [by apply (getDatabricksStructureType_table "MATERIALIZED_VIEW")|].
  split; [by apply (getDatabricksStructureType_table "STREAMING_TABLE")|].
  split; [by apply (getDatabricksStructureType_table "MANAGED")|].
  split; [apply (getDatabricksStructureType_table "EXTERNAL"); compute_done|].
  apply (getDatabricksStructureType_table "table"); compute_done.
Defined.

Example Connect_empty_catalog :
  Connect ("token:" +:+ warehouse +:+ "?catalog=")
  = Err (fmt_Errorf "required parameter '?catalog=<catalog>' is missing" []).
Proof. reflexivity. Qed.

(** Names go into the helper queries as they are, quotes and percent signs
    included. *)
Example GetHelpers_verbatim :
  Adapters.GetHelpers Doubles.other_directive (mkTableOptions "a'b" "%s;--")
    !! "List"
  = Some "SELECT * FROM a'b.%s;-- LIMIT 100;".
Proof. reflexivity. Qed.

End AdaptersSpec.

(** ** Facts on the query encoding of net/url, as modelled *)

Module UrlFacts.
Import Go.

Lemma Contains_app ch a b : Contains ch (a +:+ b) = Contains ch a || Contains ch b.
Proof. induction a as [|ch' a IH]; simpl; [done|]. rewrite IH. by rewrite orb_assoc. Qed.

Lemma Cut_app sep a b :
  Contains sep a = false -> Cut sep (a +:+ String sep b) = (a, b).
Proof.
  induction a as [|ch a IH]; simpl.
  - intros _. by rewrite Ascii.eqb_refl.
  - intros [Hch Ha]%orb_false_iff. rewrite Hch. by rewrite IH.
Qed.

Lemma Split_whole sep p : Contains sep p = false -> Split sep p = [p].
Proof.
  induction p as [|ch p IH]; simpl; [done|].
  intros [Hch Hp]%orb_false_iff. rewrite Hch. by rewrite IH.
Qed.

Lemma Split_app sep p rest :
  Contains sep p = false ->
  Split sep (p +:+ String sep rest) = p :: Split sep rest.
Proof.
  induction p as [|ch p IH]; simpl.
  - intros _. by rewrite Ascii.eqb_refl.
  - intros [Hch Hp]%orb_false_iff. rewrite Hch. by rewrite IH.
Qed.

Lemma QueryEscape_cons ch s :
  QueryEscape (String ch s) = QueryEscape (String ch "") +:+ QueryEscape s.
Proof. simpl. destruct (shouldEscape ch); [destruct (Ascii.eqb ch " ")|]; reflexivity. Qed.

Lemma QueryEscape_byte ch :
  Contains "&" (QueryEscape (String ch "")) = false
  /\ Contains "=" (QueryEscape (String ch "")) = false
  /\ Contains ";" (QueryEscape (String ch "")) = false
  /\ forall rest,
       QueryUnescape (QueryEscape (String ch "") +:+ rest)
       = String ch <$> QueryUnescape rest.
Proof.
  destruct ch as [[] [] [] [] [] [] [] []];
    (split; [reflexivity|]); (split; [reflexivity|]); (split; [reflexivity|]);
    intros rest; reflexivity.
Qed.

Lemma QueryEscape_Contains ch s :
  ch = "&"%char \/ ch = "="%char \/ ch = ";"%char ->
  Contains ch (QueryEscape s) = false.
Proof.
  intros Hch. induction s as [|c s IH]; [done|].
  rewrite QueryEscape_cons, Contains_app, IH, orb_false_r.
  destruct (QueryEscape_byte c) as (Hamp & Heq & Hsemi & _).
  by destruct Hch as [->|[->| ->]].
Qed.

Lemma QueryUnescape_QueryEscape s : QueryUnescape (QueryEscape s) = Some s.
Proof.
  induction s as [|c s IH]; [done|].
  rewrite QueryEscape_cons.
  destruct (QueryEscape_byte c) as (_ & _ & _ & ->). by rewrite IH.
Qed.

Lemma pair_of_Contains_amp k x : Contains "&" (pair_of k x) = false.
Proof.
  unfold pair_of. rewrite !Contains_app, !QueryEscape_Contains by auto. done.
Qed.

Lemma pair_of_Contains_semi k x : Contains ";" (pair_of k x) = false.
Proof.
  unfold pair_of. rewrite !Contains_app, !QueryEscape_Contains by auto. done.
Qed.

Lemma pair_of_nonempty k x : String.eqb (pair_of k x) "" = false.
Proof. apply String.eqb_neq. unfold pair_of. by destruct (QueryEscape k). Qed.

Lemma Cut_pair_of k x : Cut "=" (pair_of k x) = (QueryEscape k, QueryEscape x).
Proof. apply Cut_app, QueryEscape_Contains. auto. Qed.

Lemma parse_piece_pair_of (m : Values) k x :
  parse_piece m (pair_of k x) = <[k := (default [] (m !! k) ++ [x])%list]> m.
Proof.
  unfold parse_piece.
  rewrite pair_of_Contains_semi, pair_of_nonempty, Cut_pair_of.
  by rewrite !QueryUnescape_QueryEscape.
Qed.

Lemma foldl_parse_key (m : Values) k xs :
  xs <> [] ->
  foldl parse_piece m (pair_of k <$> xs)
  = <[k := (default [] (m !! k) ++ xs)%list]> m.
Proof.
  revert m. induction xs as [|x xs IH]; intros m Hxs; [done|].
  simpl. rewrite parse_piece_pair_of.
  destruct xs as [|x' xs]; [done|].
  rewrite IH by done. rewrite lookup_insert_eq. simpl.
  rewrite insert_insert_eq. by rewrite <- app_assoc.
Qed.

Lemma foldl_parse_pieces (v m : Values) ks :
  NoDup ks -> (forall k, k ∈ ks -> m !! k = None) ->
  forall k,
    foldl parse_piece m (pieces v ks) !! k
    = if decide (k ∈ ks) then
        match v !! k with
        | Some (x :: xs) => Some (x :: xs)
        | _ => None
        end
      else m !! k.
Proof.
  revert m. induction ks as [|k0 ks IH]; intros m Hnd Hfresh k.
  - reflexivity.
  - apply NoDup_cons in Hnd as [Hk0 Hnd].
    unfold pieces. rewrite bind_cons, foldl_app. fold (pieces v ks).
    set (m1 := foldl parse_piece m (pair_of k0 <$> default [] (v !! k0))).
    assert (forall j, m1 !! j
                      = if decide (j = k0) then
                          match v !! k0 with
                          | Some (x :: xs) => Some (x :: xs)
                          | _ => None
                          end
                        else m !! j) as Hm1.
    { intros j. unfold m1.
      destruct (v !! k0) as [[|x xs]|] eqn:Hv; [simpl| |simpl].
      - case_decide as Hj; [rewrite Hj; apply Hfresh, list_elem_of_here|done].
      - change (default [] (Some (x :: xs))) with (x :: xs).
        rewrite foldl_parse_key by done.
        rewrite (Hfresh k0) by apply list_elem_of_here. simpl.
        case_decide as Hj; [rewrite Hj; by rewrite lookup_insert_eq|].
        by rewrite lookup_insert_ne.
      - case_decide as Hj; [rewrite Hj; apply Hfresh, list_elem_of_here|done]. }
    rewrite IH; [|done|].
    + rewrite Hm1.
      destruct (decide (k = k0)) as [->|Hne], (decide (_ ∈ ks)) as [Hks|Hks],
        (decide (_ ∈ k0 :: ks)) as [Hin|Hin]; try done.
      * destruct Hin. apply list_elem_of_here.
      * destruct Hin. by apply list_elem_of_further.
      * by apply elem_of_cons in Hin as [?|?].
    + intros j Hj. rewrite Hm1. rewrite decide_False by (by intros ->).
      apply Hfresh. by apply list_elem_of_further.
Qed.

Lemma Split_concat ps :
  ps <> [] -> Forall (fun p => Contains "&" p = false) ps ->
  Split "&" (String.concat "&" ps) = ps.
Proof.
  induction ps as [|p ps IH]; [done|]. intros _ Hps.
  apply Forall_cons in Hps as [Hp Hps].
  destruct ps as [|q ps].
  - simpl. by apply Split_whole.
  - change (Split "&" (p +:+ String "&" (String.concat "&" (q :: ps)))
            = p :: q :: ps).
    rewrite Split_app by done. by rewrite IH.
Qed.

Lemma insert_sorted_Permutation k ks : insert_sorted k ks ≡ₚ k :: ks.
Proof.
  induction ks as [|k' ks IH]; simpl; [done|].
  destruct (String.leb k k'); [done|]. rewrite IH. apply Permutation_swap.
Qed.

Lemma sort_keys_Permutation ks : sort_keys ks ≡ₚ ks.
Proof.
  induction ks as [|k ks IH]; simpl; [done|].
  unfold sort_keys in *. simpl. rewrite insert_sorted_Permutation. by rewrite IH.
Qed.

Lemma parse_piece_inhabited m piece : inhabited m -> inhabited (parse_piece m piece).
Proof.
  intros Hm. unfold parse_piece.
  destruct (Contains ";" piece); [done|].
  destruct (String.eqb piece ""); [done|].
  destruct (Cut "=" piece) as [key value].
  destruct (QueryUnescape key) as [key'|]; [|done].
  destruct (QueryUnescape value) as [value'|]; [|done].
  intros k xs. destruct (decide (k = key')) as [->|Hne].
  - rewrite lookup_insert_eq. intros [= <-]. by destruct (default [] (m !! key')).
  - rewrite lookup_insert_ne by done. apply Hm.
Qed.

Lemma ParseQuery_inhabited query : inhabited (ParseQuery query).
Proof.
  unfold ParseQuery.
  assert (inhabited (∅ : Values)) as Hm by (intros k xs; by rewrite lookup_empty).
  revert Hm. generalize (∅ : Values). generalize (Split "&" query).
  intros ps. induction ps as [|p ps IH]; intros m Hm; [done|].
  simpl. apply IH. by apply parse_piece_inhabited.
Qed.

Lemma Values_Set_inhabited v key value : inhabited v -> inhabited (Values_Set v key value).
Proof.
  intros Hv k xs. unfold Values_Set.
  destruct (decide (k = key)) as [->|Hne].
  - rewrite lookup_insert_eq. by intros [= <-].
  - rewrite lookup_insert_ne by done. apply Hv.
Qed.

Lemma Values_Encode_pieces v :
  Values_Encode v = String.concat "&" (pieces v (sort_keys (map_to_list v).*1)).
Proof. reflexivity. Qed.

(** What [Values_Encode] writes, [ParseQuery] reads back. *)
Lemma ParseQuery_Encode v : inhabited v -> ParseQuery (Values_Encode v) = v.
Proof.
  intros Hv. rewrite Values_Encode_pieces. unfold ParseQuery.
  set (ks := sort_keys (map_to_list v).*1).
  assert (foldl parse_piece ∅ (Split "&" (String.concat "&" (pieces v ks)))
          = foldl parse_piece ∅ (pieces v ks)) as ->.
  { destruct (pieces v ks) as [|p ps] eqn:Hps; [done|].
    rewrite Split_concat; [done..|]. rewrite <- Hps.
    unfold pieces. apply Forall_forall. intros p' Hp'.
    apply list_elem_of_bind in Hp' as (k & Hp' & _).
    apply list_elem_of_fmap in Hp' as (x & -> & _).
    apply pair_of_Contains_amp. }
  assert (ks ≡ₚ (map_to_list v).*1) as Hperm by apply sort_keys_Permutation.
  apply map_eq. intros k.
  rewrite foldl_parse_pieces.
  - case_decide as Hk.
    + destruct (v !! k) as [[|x xs]|] eqn:Hvk; [|done..].
      by destruct (Hv k [] Hvk).
    + rewrite lookup_empty. symmetry. apply not_elem_of_dom.
      intros Hdom. apply Hk. rewrite Hperm.
      apply elem_of_dom in Hdom as [xs Hxs].
      apply list_elem_of_fmap. exists (k, xs). split; [done|].
      by apply elem_of_map_to_list.
  - rewrite Hperm. apply NoDup_fst_map_to_list.
  - intros j _. apply lookup_empty.
Qed.

End UrlFacts.

(** ** More on the plugin handlers: bounds, atomicity, composition *)

Module PluginMore.
Import Go Plugin.

Ltac run :=
  cbv [Dbee_register_client Dbee_execute Dbee_get_schema
       bind ret throw raise get modify try index emit store load];
  simpl.

Section Spec.

Context {Client Rows : Type}.
Variable NewPostgres : string -> result Client.
Variable NewRedis : string -> result Client.
Variable Client_Execute : Client -> string -> result Rows.
Variable Client_Schema : Client -> result Values.
Variable BufferOutput_Set : Z -> Rows -> option error.

Local Abbreviation state := (@state Client Rows).
Local Abbreviation register :=
  (@Dbee_register_client Client Rows NewPostgres NewRedis).
Local Abbreviation execute := (Dbee_execute Client_Execute BufferOutput_Set).
Local Abbreviation get_schema := (@Dbee_get_schema Client Rows Client_Schema).
Local Abbreviation serve :=
  (serve NewPostgres NewRedis Client_Execute Client_Schema BufferOutput_Set).
Local Abbreviation session :=
  (session NewPostgres NewRedis Client_Execute Client_Schema BufferOutput_Set).
Local Abbreviation constructed := (@constructed Client Rows NewPostgres NewRedis).

(** *** Relations every step of a computation keeps *)

Section Keeps.

Variable R : state -> state -> Prop.
Hypothesis R_refl : forall s, R s s.
Hypothesis R_trans : forall s1 s2 s3, R s1 s2 -> R s2 s3 -> R s1 s3.

Lemma keeps_ret {A} (a : A) : keeps R (ret a).
Proof. intros s. apply R_refl. Qed.

Lemma keeps_throw {A} e : keeps R (@throw state A e).
Proof. intros s. apply R_refl. Qed.

Lemma keeps_raise {A} p : keeps R (@raise state A p).
Proof. intros s. apply R_refl. Qed.

Lemma keeps_get : keeps R get.
Proof. intros s. apply R_refl. Qed.

Lemma keeps_try {A} (r : result A) : keeps R (try r).
Proof. destruct r; intros s; apply R_refl. Qed.

Lemma keeps_index {A} (a : list A) i : keeps R (index a i).
Proof. unfold index. destruct (a !! i); intros s; apply R_refl. Qed.

Lemma keeps_load id : keeps R (load id).
Proof. intros s. apply R_refl. Qed.

Lemma keeps_bind {A B} (m : M state A) (k : A -> M state B) :
  keeps R m -> (forall a, keeps R (k a)) -> keeps R (bind m k).
Proof.
  intros Hm Hk s. unfold bind. specialize (Hm s).
  destruct (m s) as [[a|e|p] s1]; simpl in *; [|done..].
  eapply R_trans; [exact Hm|apply Hk].
Qed.

Lemma keeps_if {A} (b : bool) (m1 m2 : M state A) :
  keeps R m1 -> keeps R m2 -> keeps R (if b then m1 else m2).
Proof. by destruct b. Qed.

End Keeps.

Lemma untouched_refl (s : state) : untouched s s.
Proof. reflexivity. Qed.

Lemma untouched_trans (s1 s2 s3 : state) :
  untouched s1 s2 -> untouched s2 s3 -> untouched s1 s3.
Proof. unfold untouched. congruence. Qed.

Lemma only_calls_refl allowed (s : state) : only_calls allowed s s.
Proof. exists []. by rewrite app_nil_r. Qed.

Lemma only_calls_trans allowed (s1 s2 s3 : state) :
  only_calls allowed s1 s2 -> only_calls allowed s2 s3 -> only_calls allowed s1 s3.
Proof.
  intros (c1 & H1 & A1) (c2 & H2 & A2). exists (c1 ++ c2)%list.
  rewrite H2, H1, <- app_assoc. split; [done|].
  rewrite forallb_app. by rewrite A1, A2.
Qed.

Lemma untouched_emit (e : @event Client Rows) : keeps untouched (emit e).
Proof. by intros s. Qed.

Lemma only_calls_emit (allowed : @event Client Rows -> bool) e :
  allowed e = true -> keeps (only_calls allowed) (emit e).
Proof. intros He s. exists [e]. simpl. by rewrite He. Qed.

Lemma only_calls_store (allowed : @event Client Rows -> bool) id client :
  keeps (only_calls allowed) (store id client).
Proof. intros s. exists []. simpl. by rewrite app_nil_r. Qed.

(** Applies the rules above to a handler body. *)
Ltac keeps_with refl trans emit_rule :=
  repeat first
    [ apply (keeps_bind _ trans); [|intros ?]
    | apply keeps_if
    | apply (keeps_ret _ refl)
    | apply (keeps_throw _ refl)
    | apply (keeps_raise _ refl)
    | apply (keeps_get _ refl)
    | apply (keeps_try _ refl)
    | apply (keeps_index _ refl)
    | apply (keeps_load _ refl)
    | emit_rule
    | match goal with
      | |- keeps _ (match ?x with _ => _ end) => destruct x
      end ].

Lemma execute_untouched args : keeps untouched (execute args).
Proof.
  unfold Dbee_execute.
  keeps_with untouched_refl untouched_trans ltac:(apply untouched_emit).
Qed.

Lemma get_schema_untouched args : keeps untouched (get_schema args).
Proof.
  unfold Dbee_get_schema.
  keeps_with untouched_refl untouched_trans ltac:(apply untouched_emit).
Qed.

Lemma register_only_calls allowed args :
  (forall text, allowed (log_Print text) = true) ->
  (forall url, allowed (call_NewPostgres url) = true) ->
  (forall url, allowed (call_NewRedis url) = true) ->
  keeps (only_calls allowed) (register args).
Proof.
  intros Hlog Hpg Hredis. unfold Dbee_register_client.
  keeps_with (only_calls_refl allowed) (only_calls_trans allowed)
    ltac:(first [ apply only_calls_emit; auto | apply only_calls_store ]).
Qed.

Lemma execute_only_calls allowed args :
  (forall text, allowed (log_Print text) = true) ->
  (forall client query, allowed (call_Execute client query) = true) ->
  (forall bufnr rows, allowed (call_Set bufnr rows) = true) ->
  keeps (only_calls allowed) (execute args).
Proof.
  intros Hlog Hexec Hset. unfold Dbee_execute.
  keeps_with (only_calls_refl allowed) (only_calls_trans allowed)
    ltac:(apply only_calls_emit; auto).
Qed.

Lemma get_schema_only_calls allowed args :
  (forall text, allowed (log_Print text) = true) ->
  (forall client, allowed (call_Schema client) = true) ->
  keeps (only_calls allowed) (get_schema args).
Proof.
  intros Hlog Hschema. unfold Dbee_get_schema.
  keeps_with (only_calls_refl allowed) (only_calls_trans allowed)
    ltac:(apply only_calls_emit; auto).
Qed.

Lemma register_step (s : state) args :
  (fst (register args s) <> Return tt /\ untouched s (snd (register args s)))
  \/ exists id url typ rest client,
       args = id :: url :: typ :: rest
       /\ (typ = "postgres" /\ NewPostgres url = Ok client
              /\ trace (snd (register args s))
                 = (trace s ++ [log_Print "calling Dbee_register_client";
                                call_NewPostgres url])%list
           \/ typ = "redis" /\ NewRedis url = Ok client
              /\ trace (snd (register args s))
                 = (trace s ++ [log_Print "calling Dbee_register_client";
                                call_NewRedis url])%list)
       /\ fst (register args s) = Return tt
       /\ clientMap (snd (register args s)) = <[id := client]> (clientMap s).
Proof.
  destruct args as [|id [|url [|typ rest]]]; try (left; by split).
  run.
  destruct (String.eqb typ "postgres") eqn:Hp; simpl.
  - apply String.eqb_eq in Hp as ->.
    destruct (NewPostgres url) as [client|] eqn:Hnew; simpl;
      [|left; by split].
    right. exists id, url, "postgres", rest, client.
    rewrite <- app_assoc. split; [done|]. split; [|done]. left. by rewrite Hnew.
  - destruct (String.eqb typ "redis") eqn:Hr; simpl; [|left; by split].
    apply String.eqb_eq in Hr as ->.
    destruct (NewRedis url) as [client|] eqn:Hnew; simpl;
      [|left; by split].
    right. exists id, url, "redis", rest, client.
    rewrite <- app_assoc. split; [done|]. split; [|done]. right. by rewrite Hnew.
Qed.

(** X1: [Dbee_register_client] and [Dbee_get_schema] never panic: each
    reads only the arguments its guard has checked. *)
Theorem register_and_get_schema_never_panic (s : state) args p :
  fst (register args s) <> Panic p /\ fst (get_schema args s) <> Panic p.
Proof.
  split.
  - destruct (register_step s args) as [[Hfail _]|(?&?&?&?&?&_&_&Hok&_)];
      [|by rewrite Hok].
    destruct args as [|id [|url [|typ rest]]]; try done.
    run. destruct (String.eqb typ "postgres"); simpl;
      [destruct (NewPostgres url); done|].
    destruct (String.eqb typ "redis"); simpl; [|done].
    destruct (NewRedis url); done.
  - destruct args as [|id rest]; [done|]. run.
    destruct (clientMap s !! id) as [client|]; simpl; [|done].
    by destruct (Client_Schema client).
Qed.


(** X3: a [Dbee_register_client] call that does not return nil, for
    whatever reason, leaves the map as it was. *)
Theorem Dbee_register_client_failure_untouched (s : state) args :
  fst (register args s) <> Return tt ->
  untouched s (snd (register args s)).
Proof.
  intros Hfail.
  destruct (register_step s args) as [[_ Hsame]|(?&?&?&?&?&_&_&Hok&_)]; done.
Qed.

(** X4: [Dbee_register_client] changes no binding but the one of its first
    argument. *)
Theorem Dbee_register_client_frame (s : state) args (other : string) :
  args !! 0 <> Some other ->
  clientMap (snd (register args s)) !! other = clientMap s !! other.
Proof.
  intros Hother.
  destruct (register_step s args)
    as [[_ Hsame]|(id&?&?&?&client&->&_&_&Hmap)]; [by rewrite Hsame|].
  rewrite Hmap. apply lookup_insert_ne. by intros ->.
Qed.

(** X5: after a register call that returned nil, [Dbee_get_schema] with
    the same id asks the client that call constructed for its schema and
    returns what the client returns. *)
Theorem Dbee_register_client_then_get_schema
    (s s' : state) id url typ rest rest' :
  register (id :: url :: typ :: rest) s = (Return tt, s') ->
  exists client,
    (typ = "postgres" /\ NewPostgres url = Ok client
     \/ typ = "redis" /\ NewRedis url = Ok client)
    /\ get_schema (id :: rest') s'
       = (returned (Client_Schema client),
          mkState (clientMap s')
                  (trace s' ++ [log_Print "calling Dbee_get_schema";
                                call_Schema client])).
Proof.
  intros Hrun.
  destruct (register_step s (id :: url :: typ :: rest))
    as [[Hfail _]|(?&?&?&?&client&[= <- <- <- <-]&Hnew&_&Hmap)];
    rewrite Hrun in *; [done|]. simpl in *.
  exists client. split; [destruct Hnew as [(?&?&_)|(?&?&_)]; [by left|by right]|].
  run. rewrite Hmap, lookup_insert_eq. simpl.
  rewrite <- app_assoc. by destruct (Client_Schema client).
Qed.

(** X6: with a registered id and a buffer number that parses,
    [Dbee_execute] runs the query on that id's client; an error of the
    client is returned and nothing is written, otherwise the rows go to the
    buffer of that number and the result is the one of the write. *)
Theorem Dbee_execute_registered (s : state) id client query b bufnr rest :
  clientMap s !! id = Some client ->
  Atoi b = Ok bufnr ->
  execute (id :: query :: b :: rest) s
  = match Client_Execute client query with
    | Err e =>
        (Error e,
         mkState (clientMap s)
                 (trace s ++ [log_Print "calling Dbee_execute";
                              call_Execute client query]))
    | Ok rows =>
        (match BufferOutput_Set bufnr rows with
         | Some e => Error e
         | None => Return tt
         end,
         mkState (clientMap s)
                 (trace s ++ [log_Print "calling Dbee_execute";
                              call_Execute client query;
                              call_Set bufnr rows]))
    end.
Proof.
  intros Hid Hb. run. rewrite Hb. simpl. rewrite Hid. simpl.
  destruct (Client_Execute client query) as [rows|]; simpl.
  - rewrite <- !app_assoc. by destruct (BufferOutput_Set bufnr rows).
  - by rewrite <- app_assoc.
Qed.

(** X7: when the third argument does not parse as an integer,
    [Dbee_execute] returns the error of [strconv.Atoi] and calls no client,
    whether the id is registered or not. *)
Theorem Dbee_execute_bad_buffer (s : state) id query b e rest :
  Atoi b = Err e ->
  execute (id :: query :: b :: rest) s
  = (Error e, logged s "calling Dbee_execute").
Proof. intros Hb. run. by rewrite Hb. Qed.

(** X8: [Dbee_execute] and [Dbee_get_schema] never write to the map,
    whatever their arguments and however they end. *)
Theorem lookups_never_write (s : state) args :
  untouched s (snd (execute args s)) /\ untouched s (snd (get_schema args s)).
Proof. split; [apply execute_untouched|apply get_schema_untouched]. Qed.

(** X9: no handler closes a client: the calls of the three handlers are
    log lines, constructors, queries and buffer writes only. *)
Theorem handlers_never_close (s : state) args :
  only_calls (fun e => negb (is_close e)) s (snd (register args s))
  /\ only_calls (fun e => negb (is_close e)) s (snd (execute args s))
  /\ only_calls (fun e => negb (is_close e)) s (snd (get_schema args s)).
Proof.
  split; [|split].
  - by apply register_only_calls.
  - by apply execute_only_calls.
  - by apply get_schema_only_calls.
Qed.

Lemma close_loop (l : list (string * Client)) (s : state) :
  foldr (fun kc k => bind (emit (call_Close kc.2)) (fun _ => k)) (ret tt) l s
  = (Return tt, mkState (clientMap s) (trace s ++ (call_Close <$> l.*2))).
Proof.
  revert s. induction l as [|[id client] l IH]; intros s.
  - simpl. unfold ret. rewrite app_nil_r. by destruct s.
  - simpl. unfold bind at 1. simpl. rewrite IH. simpl.
    by rewrite <- app_assoc.
Qed.

(** X10: the deferred sweep closes every registered client once, in some
    order, removes nothing from the map and returns normally. *)
Theorem close_all_closes_each (s : state) :
  fst (close_all s) = Return tt
  /\ untouched s (snd (close_all s))
  /\ exists calls,
       trace (snd (close_all s)) = (trace s ++ calls)%list
       /\ calls ≡ₚ call_Close <$> (map_to_list (clientMap s)).*2
       /\ forall id client,
            clientMap s !! id = Some client -> call_Close client ∈ calls.
Proof.
  unfold close_all, bind, get. simpl. rewrite close_loop. simpl.
  split; [done|]. split; [done|].
  eexists. split; [done|]. split; [done|].
  intros id client Hid. apply list_elem_of_fmap. exists client. split; [done|].
  apply list_elem_of_fmap. exists (id, client). split; [done|].
  by apply elem_of_map_to_list.
Qed.

Lemma constructed_grows (s s' : state) client :
  only_calls (fun _ => true) s s' -> constructed s client -> constructed s' client.
Proof.
  intros (calls & Htrace & _) (url & Hurl). exists url. rewrite Htrace.
  destruct Hurl as [[Hnew Hin]|[Hnew Hin]]; [left|right];
    (split; [done|]); apply elem_of_app; by left.
Qed.

Lemma serve_only_calls r : keeps (only_calls (fun _ => true)) (fun s => (Return tt, serve r s)).
Proof.
  intros s. destruct r as [args|args|args]; simpl.
  - by apply register_only_calls.
  - by apply execute_only_calls.
  - by apply get_schema_only_calls.
Qed.

Lemma serve_constructed r (s : state) :
  (forall id client, clientMap s !! id = Some client -> constructed s client) ->
  forall id client,
    clientMap (serve r s) !! id = Some client -> constructed (serve r s) client.
Proof.
  intros Hinv id client Hid.
  pose proof (serve_only_calls r s) as Hgrow. simpl in Hgrow.
  destruct r as [args|args|args]; simpl in *.
  - destruct (register_step s args)
      as [[_ Hsame]|(id'&url&typ&rest&client'&->&Hnew&_&Hmap)].
    + rewrite Hsame in Hid. eauto using constructed_grows.
    + rewrite Hmap in Hid. destruct (decide (id = id')) as [->|Hne].
      * rewrite lookup_insert_eq in Hid. injection Hid as <-.
        exists url.
        destruct Hnew as [(_&Hnew&->)|(_&Hnew&->)]; [left|right];
          (split; [done|]); apply elem_of_app; right;
          apply list_elem_of_further, list_elem_of_here.
      * rewrite lookup_insert_ne in Hid by done. eauto using constructed_grows.
  - rewrite execute_untouched in Hid. eauto using constructed_grows.
  - rewrite get_schema_untouched in Hid. eauto using constructed_grows.
Qed.

(** X11: in every sequence of requests that starts from an empty map, each
    client found in the map was returned by [NewPostgres] or [NewRedis] in a
    call the trace records. *)
Theorem session_clients_constructed requests (s : state) id client :
  clientMap s = ∅ ->
  clientMap (session requests s) !! id = Some client ->
  constructed (session requests s) client.
Proof.
  intros Hempty.
  assert (forall id client, clientMap s !! id = Some client -> constructed s client)
    as Hinv by (intros ? ?; by rewrite Hempty, lookup_empty).
  clear Hempty. revert s Hinv id client.
  induction requests as [|r requests IH]; intros s Hinv id client; simpl.
  - apply Hinv.
  - apply IH. by apply serve_constructed.
Qed.

Lemma serve_keeps_ids r (s : state) id :
  is_Some (clientMap s !! id) -> is_Some (clientMap (serve r s) !! id).
Proof.
  intros Hid. destruct r as [args|args|args]; simpl.
  - destruct (register_step s args)
      as [[_ Hsame]|(id'&?&?&?&client'&_&_&_&Hmap)].
    + by rewrite Hsame.
    + rewrite Hmap. destruct (decide (id = id')) as [->|Hne].
      * rewrite lookup_insert_eq. by eexists.
      * by rewrite lookup_insert_ne.
  - by rewrite execute_untouched.
  - by rewrite get_schema_untouched.
Qed.

(** X12: no request removes a binding: an id that is registered stays
    registered through every later sequence of requests. *)
Theorem session_keeps_ids requests (s : state) id :
  is_Some (clientMap s !! id) ->
  is_Some (clientMap (session requests s) !! id).
Proof.
  revert s. induction requests as [|r requests IH]; intros s Hid; simpl.
  - done.
  - apply IH. by apply serve_keeps_ids.
Qed.

End Spec.

(** *** The handlers run on the stand-in clients *)

Import Doubles.

Abbreviation register := (Dbee_register_client Doubles.NewPostgres Doubles.NewRedis).
Abbreviation execute :=
  (Dbee_execute Doubles.Client_Execute Doubles.BufferOutput_Set).
Abbreviation get_schema := (Dbee_get_schema Doubles.Client_Schema).
Abbreviation session :=
  (Plugin.session Doubles.NewPostgres Doubles.NewRedis Doubles.Client_Execute
     Doubles.Client_Schema Doubles.BufferOutput_Set).
Abbreviation constructed :=
  (Plugin.constructed Doubles.NewPostgres Doubles.NewRedis).

Lemma Dbee_register_client_failure_untouched_run :
  fst (register ["c1"; ""; "postgres"] one_client) <> Return tt
  /\ clientMap (snd (register ["c1"; ""; "postgres"] one_client)) !! "c1"
     = Some "postgres client for localhost".
Proof.
  assert (fst (register ["c1"; ""; "postgres"] one_client) <> Return tt)
    as Hfail by (vm_compute; discriminate).
  split; [exact Hfail|].
  rewrite (Dbee_register_client_failure_untouched Doubles.NewPostgres
             Doubles.NewRedis one_client ["c1"; ""; "postgres"] Hfail).
  reflexivity.
Defined.

Lemma Dbee_register_client_frame_run :
  ["c2"; "localhost"; "redis"] !! 0 <> Some "c1"
  /\ clientMap (snd (register ["c2"; "localhost"; "redis"] one_client)) !! "c1"
     = Some "postgres client for localhost".
Proof.
  assert (["c2"; "localhost"; "redis"] !! 0 <> Some "c1") as Hother
    by discriminate.
  split; [exact Hother|].
  rewrite (Dbee_register_client_frame Doubles.NewPostgres Doubles.NewRedis
             one_client ["c2"; "localhost"; "redis"] "c1" Hother).
  reflexivity.
Defined.

Lemma Dbee_register_client_then_get_schema_run :
  let s' :=
    mkState {[ "c2" := "redis client for localhost" ]}
            [log_Print "calling Dbee_register_client"; call_NewRedis "localhost"] in
  register ["c2"; "localhost"; "redis"] empty_state = (Return tt, s')
  /\ exists client,
       ("redis" = "postgres" /\ Doubles.NewPostgres "localhost" = Ok client
        \/ "redis" = "redis" /\ Doubles.NewRedis "localhost" = Ok client)
       /\ get_schema ["c2"] s'
          = (returned (Doubles.Client_Schema client),
             mkState (clientMap s')
                     (trace s' ++ [log_Print "calling Dbee_get_schema";
                                   call_Schema client])).
Proof.
  intros s'.
  assert (register ["c2"; "localhost"; "redis"] empty_state = (Return tt, s'))
    as Hrun by reflexivity.
  split; [exact Hrun|].
  exact (Dbee_register_client_then_get_schema Doubles.NewPostgres Doubles.NewRedis
           Doubles.Client_Schema empty_state s' "c2" "localhost" "redis" [] []
           Hrun).
Defined.

Lemma Dbee_execute_registered_run :
  clientMap one_client !! "c1" = Some "postgres client for localhost"
  /\ Atoi "7" = Ok 7%Z
  /\ execute ["c1"; "select 1"; "7"] one_client
     = (Return tt,
        mkState (clientMap one_client)
                [log_Print "calling Dbee_execute";
                 call_Execute "postgres client for localhost" "select 1";
                 call_Set 7 ["select 1"]]).
Proof.
  assert (clientMap one_client !! "c1" = Some "postgres client for localhost")
    as Hid by reflexivity.
  assert (Atoi "7" = Ok 7%Z) as Hb by reflexivity.
  split; [exact Hid|]. split; [exact Hb|].
  rewrite (Dbee_execute_registered Doubles.Client_Execute Doubles.BufferOutput_Set
             one_client "c1" _ "select 1" "7" 7%Z [] Hid Hb).
  reflexivity.
Defined.

Lemma Dbee_execute_bad_buffer_run :
  Atoi "abc" = Err (NumError "Atoi" "abc" ErrSyntax)
  /\ execute ["c1"; "select 1"; "abc"] one_client
     = (Error (NumError "Atoi" "abc" ErrSyntax),
        logged one_client "calling Dbee_execute").
Proof.
  assert (Atoi "abc" = Err (NumError "Atoi" "abc" ErrSyntax)) as Hb
    by reflexivity.
  split; [exact Hb|].
  exact (Dbee_execute_bad_buffer Doubles.Client_Execute Doubles.BufferOutput_Set
           one_client "c1" "select 1" "abc" _ [] Hb).
Defined.

Lemma session_clients_constructed_run :
  let requests :=
    [register_request ["c1"; "localhost"; "redis"];
     execute_request ["c1"; "select 1"];
     schema_request ["c1"]] in
  clientMap empty_state = ∅
  /\ clientMap (session requests empty_state) !! "c1"
     = Some "redis client for localhost"
  /\ constructed (session requests empty_state) "redis client for localhost".
Proof.
  intros requests.
  assert (clientMap empty_state = ∅) as Hempty by reflexivity.
  assert (clientMap (session requests empty_state) !! "c1"
          = Some "redis client for localhost") as Hid by reflexivity.
  split; [exact Hempty|]. split; [exact Hid|].
  exact (session_clients_constructed Doubles.NewPostgres Doubles.NewRedis
           Doubles.Client_Execute Doubles.Client_Schema Doubles.BufferOutput_Set
           requests empty_state "c1" _ Hempty Hid).
Defined.

Lemma session_keeps_ids_run :
  let requests :=
    [register_request ["c1"; ""; "postgres"];
     register_request ["c2"; "localhost"; "mysql"];
     execute_request ["c1"; "select 1"]] in
  is_Some (clientMap one_client !! "c1")
  /\ is_Some (clientMap (session requests one_client) !! "c1").
Proof.
  intros requests.
  assert (is_Some (clientMap one_client !! "c1")) as Hid by (by eexists).
  split; [exact Hid|].
  exact (session_keeps_ids Doubles.NewPostgres Doubles.NewRedis
           Doubles.Client_Execute Doubles.Client_Schema Doubles.BufferOutput_Set
           requests one_client "c1" Hid).
Defined.

End PluginMore.

(** ** More on the Databricks driver: the stored URL, streams, composition *)

Module AdaptersMore.
Import Go Adapters UrlFacts.

Ltac run :=
  cbv [SelectDatabase ListDatabases Structure Query Client_Swap this update emit
       bind ret throw raise get modify try index];
  simpl.

Section Spec.

Context {DB StructureNode : Type}.
Variable sql_Open : string -> string -> result DB.
Variable url_Parse : string -> result URL.
Variable URL_String : URL -> string.
Variable other_directive : string -> list string -> string.
Variable QueryUntilNotEmpty : DB -> string -> result ResultStream.
Variable GetGenericStructure :
  ResultStream -> (string -> StructureType) -> result (list StructureNode).

Local Abbreviation state := (@state DB).
Local Abbreviation SelectDatabase := (SelectDatabase sql_Open URL_String).
Local Abbreviation ListDatabases := (ListDatabases QueryUntilNotEmpty).
Local Abbreviation Connect := (Connect sql_Open url_Parse URL_String).
Local Abbreviation Structure :=
  (Structure other_directive QueryUntilNotEmpty GetGenericStructure).
Local Abbreviation target name s :=
  (URL_String (switched name (connectionURL (self s)))).

(** The text [Structure] sends for a catalog name. *)
Local Abbreviation tables_of name :=
  (newline +:+ "SELECT table_schema, table_name, table_type" +:+
   newline +:+ "FROM system.information_schema.tables" +:+
   newline +:+ "WHERE table_catalog = '" +:+ name +:+ "';" +:+
   newline).

Lemma URL_Query_switched name u :
  URL_Query (switched name u) = Values_Set (URL_Query u) "catalog" name.
Proof.
  unfold switched, URL_Query at 1. simpl.
  apply ParseQuery_Encode, Values_Set_inhabited, ParseQuery_inhabited.
Qed.

Lemma switched_switched a b u : switched b (switched a u) = switched b u.
Proof.
  unfold switched at 1 3. rewrite URL_Query_switched.
  unfold Values_Set. rewrite insert_insert_eq. by destruct u.
Qed.

Lemma SelectDatabase_URL (s : state) name :
  connectionURL (self (snd (SelectDatabase name s)))
  = switched name (connectionURL (self s)).
Proof.
  destruct (sql_Open "databricks" (target name s)) as [handle|err] eqn:Hopen.
  - by rewrite (AdaptersSpec.SelectDatabase_opened _ _ _ _ _ Hopen).
  - by rewrite (AdaptersSpec.SelectDatabase_refused _ _ _ _ _ Hopen).
Qed.

Lemma SelectDatabase_outcome (s : state) name :
  fst (SelectDatabase name s)
  = match sql_Open "databricks" (target name s) with
    | Ok _ => Return tt
    | Err err => Error (fmt_Errorf "error switching catalog: %w" [of_error err])
    end.
Proof.
  destruct (sql_Open "databricks" (target name s)) as [handle|err] eqn:Hopen.
  - by rewrite (AdaptersSpec.SelectDatabase_opened _ _ _ _ _ Hopen).
  - by rewrite (AdaptersSpec.SelectDatabase_refused _ _ _ _ _ Hopen).
Qed.

(** X13: whether or not the open succeeds, [SelectDatabase name] leaves a
    URL whose query, read back, is the old one with [catalog] set to the
    single value [name] (whatever bytes [name] holds): every other
    parameter keeps its values, and no other field of the URL changes. *)
Theorem SelectDatabase_query_parameters (s : state) (name : string) :
  let u := connectionURL (self s) in
  let u' := connectionURL (self (snd (SelectDatabase name s))) in
  URL_Query u' = <["catalog" := [name]]> (URL_Query u)
  /\ catalog_parameter u' = name
  /\ (forall key, key <> "catalog" -> URL_Query u' !! key = URL_Query u !! key)
  /\ u' = set_RawQuery u (RawQuery u').
Proof.
  simpl. rewrite SelectDatabase_URL.
  assert (URL_Query (switched name (connectionURL (self s)))
          = <["catalog" := [name]]> (URL_Query (connectionURL (self s)))) as Hq
    by apply URL_Query_switched.
  split; [done|]. split; [|split].
  - unfold catalog_parameter, Values_Get. by rewrite Hq, lookup_insert_eq.
  - intros key Hkey. rewrite Hq. by apply lookup_insert_ne.
  - by destruct (connectionURL (self s)).
Qed.

(** X14: after a [SelectDatabase] whose open succeeded, the current
    catalog is again the [catalog] parameter of the stored URL. *)
Theorem SelectDatabase_success_consistent (s : state) name handle :
  sql_Open "databricks" (target name s) = Ok handle ->
  currentCatalog (self (snd (SelectDatabase name s)))
  = catalog_parameter (connectionURL (self (snd (SelectDatabase name s)))).
Proof.
  intros Hopen. rewrite (AdaptersSpec.SelectDatabase_opened _ _ _ _ _ Hopen).
  simpl. unfold catalog_parameter, Values_Get.
  rewrite URL_Query_switched. unfold Values_Set. by rewrite lookup_insert_eq.
Qed.

(** X15: an earlier [SelectDatabase a], failed or not, has no effect on a
    later [SelectDatabase b]: it opens the same data source name, returns
    the same result and leaves the same URL as it would without the
    earlier call. *)
Theorem SelectDatabase_last_wins (s : state) (a b : string) :
  let s1 := snd (SelectDatabase a s) in
  target b s1 = target b s
  /\ fst (SelectDatabase b s1) = fst (SelectDatabase b s)
  /\ connectionURL (self (snd (SelectDatabase b s1)))
     = connectionURL (self (snd (SelectDatabase b s))).
Proof.
  simpl.
  assert (switched b (connectionURL (self (snd (SelectDatabase a s))))
          = switched b (connectionURL (self s))) as Hurl
    by (rewrite SelectDatabase_URL; apply switched_switched).
  split; [by rewrite Hurl|]. split.
  - rewrite !SelectDatabase_outcome. by rewrite Hurl.
  - rewrite !SelectDatabase_URL. by rewrite <- Hurl, SelectDatabase_URL.
Qed.

(** X16: [SelectDatabase] does not check its argument: with the empty name
    and an open that succeeds it returns nil and leaves the current catalog
    empty, which no driver returned by [Connect] has. *)
Theorem SelectDatabase_empty_name (s : state) handle :
  sql_Open "databricks" (target "" s) = Ok handle ->
  fst (SelectDatabase "" s) = Return tt
  /\ currentCatalog (self (snd (SelectDatabase "" s))) = ""
  /\ forall connection,
       Connect connection <> Ok (self (snd (SelectDatabase "" s))).
Proof.
  intros Hopen. rewrite (AdaptersSpec.SelectDatabase_opened _ _ _ _ _ Hopen).
  simpl. split; [done|]. split; [done|].
  intros connection. unfold Adapters.Connect.
  destruct (url_Parse connection) as [u|]; [|done].
  destruct (sql_Open "databricks" (URL_String u)); [|done].
  destruct (String.eqb _ "") eqn:Hcat; [done|].
  apply String.eqb_neq in Hcat. by intros [= _ _ ?].
Qed.

(** X17: [ListDatabases] writes nothing to the driver and sends one query,
    [SHOW CATALOGS;], on the handle the client holds, however it ends. *)
Theorem ListDatabases_reads_only (s : state) :
  self (snd (ListDatabases s)) = self s
  /\ trace (snd (ListDatabases s))
     = (trace s ++ [call_Query (db (c (self s))) "SHOW CATALOGS;"])%list.
Proof.
  run. destruct (QueryUntilNotEmpty _ _) as [rows|err]; simpl; [|done].
  pose proof (AdaptersSpec.catalogs_state rows []
    (mkState (self s) (trace s ++ [call_Query (db (c (self s))) "SHOW CATALOGS;"])))
    as Hst.
  destruct (catalogs rows [] _) as [[names|e|p] s1]; simpl in *; by subst s1.
Qed.

Lemma catalogs_returns (rows : ResultStream) (s : state) available out :
  fst (catalogs rows available s) = Return out
  <-> exists names, Forall2 names_catalog rows names
                    /\ out = (available ++ names)%list.
Proof.
  revert available. induction rows as [|next rows IH]; intros available.
  - simpl. split.
    + intros [= <-]. exists []. by rewrite app_nil_r.
    + intros (names & ->%Forall2_nil_inv_l & ->). by rewrite app_nil_r.
  - simpl. destruct next as [row|err].
    + destruct row as [|cell cells].
      { split; [done|]. by intros (names & (?&?&(?&?)&_)%Forall2_cons_inv_l & _). }
      cbv [bind try ret index]. simpl.
      destruct cell as [name| | |].
      2-4: split; [done|];
        by intros (names & (?&?&(?&?)&_)%Forall2_cons_inv_l & _).
      rewrite IH. split.
      * intros (names & Hrows & ->). exists (name :: names).
        split; [|by rewrite <- app_assoc].
        constructor; [by exists cells|done].
      * intros (names & (name'&names'&(cells'&[= -> ->])&Hrows&->)%Forall2_cons_inv_l & ->).
        exists names'. split; [done|]. by rewrite <- app_assoc.
    + split; [done|]. by intros (names & (?&?&(?&?)&_)%Forall2_cons_inv_l & _).
Qed.

(** X18: [ListDatabases] returns [(current, available)] exactly when the
    query succeeds and every row of the stream comes without error and
    starts with a string cell; [current] is then the driver's current
    catalog and [available] the first cells in stream order, further cells
    ignored. *)
Theorem ListDatabases_returns_iff (s : state) current available :
  fst (ListDatabases s) = Return (current, available)
  <-> current = currentCatalog (self s)
      /\ exists rows,
           QueryUntilNotEmpty (db (c (self s))) "SHOW CATALOGS;" = Ok rows
           /\ Forall2 names_catalog rows available.
Proof.
  run. destruct (QueryUntilNotEmpty _ _) as [rows|err]; simpl.
  - set (s0 := mkState (self s) _).
    pose proof (AdaptersSpec.catalogs_state rows [] s0) as Hst.
    pose proof (catalogs_returns rows s0 []) as Hret.
    destruct (catalogs rows [] s0) as [[names|e|p] s1]; simpl in *; subst s1.
    + split.
      * intros [= <- <-]. split; [done|]. exists rows. split; [done|].
        destruct (proj1 (Hret names) eq_refl) as (names' & Hrows & ->). done.
      * intros (-> & rows' & [= <-] & Hrows).
        assert (Return names = Return available) as [= ->]; [|done].
        apply Hret. by exists available.
    + split; [done|]. intros (_ & rows' & [= <-] & Hrows).
      assert (Error e = Return available) as [=]. apply Hret. by exists available.
    + split; [done|]. intros (_ & rows' & [= <-] & Hrows).
      assert (Panic p = Return available) as [=]. apply Hret. by exists available.
  - split; [done|]. by intros (_ & rows & [=] & _).
Qed.

Lemma catalogs_app (good : ResultStream) names rest available (s : state) :
  Forall2 names_catalog good names ->
  catalogs (good ++ rest)%list available s
  = catalogs rest (available ++ names)%list s.
Proof.
  intros Hgood. revert available.
  induction Hgood as [|next name good names (cells & ->) _ IH]; intros available.
  - simpl. by rewrite app_nil_r.
  - simpl. cbv [bind try ret index]. simpl. rewrite IH. by rewrite <- app_assoc.
Qed.

(** X19: the first row that is not a plain catalog row decides how
    [ListDatabases] ends, and nothing gathered before it is returned: an
    error from the stream is returned as it is, a row without cells makes
    the call panic on [row[0]], and a first cell that is not a string gives
    the expected-string error. *)
Theorem ListDatabases_first_bad_row
    (s : state) (good : ResultStream) names (bad : result (list any)) rest :
  QueryUntilNotEmpty (db (c (self s))) "SHOW CATALOGS;"
  = Ok (good ++ bad :: rest)%list ->
  Forall2 names_catalog good names ->
  (forall e, bad = Err e -> fst (ListDatabases s) = Error e)
  /\ (bad = Ok [] -> fst (ListDatabases s) = Panic (index_out_of_range 0 0))
  /\ (forall cell cells,
        bad = Ok (cell :: cells) ->
        (forall name, cell <> any_string name) ->
        fst (ListDatabases s)
        = Error (fmt_Errorf "expected string, got %T" [of_any cell])).
Proof.
  intros Hq Hgood.
  assert (forall e,
            (forall (s0 : state) available,
               fst (catalogs (bad :: rest) available s0) = Error e) ->
            fst (ListDatabases s) = Error e) as Herror.
  { intros e He. run. rewrite Hq. simpl.
    rewrite (catalogs_app good names) by done.
    specialize (He (mkState (self s)
                      (trace s ++ [call_Query (db (c (self s))) "SHOW CATALOGS;"]))
                   ([] ++ names)%list).
    destruct (catalogs (bad :: rest) _ _) as [[?|?|?] ?]; simpl in *; by simplify_eq. }
  assert (forall p,
            (forall (s0 : state) available,
               fst (catalogs (bad :: rest) available s0) = Panic p) ->
            fst (ListDatabases s) = Panic p) as Hpanic.
  { intros p Hp. run. rewrite Hq. simpl.
    rewrite (catalogs_app good names) by done.
    specialize (Hp (mkState (self s)
                      (trace s ++ [call_Query (db (c (self s))) "SHOW CATALOGS;"]))
                   ([] ++ names)%list).
    destruct (catalogs (bad :: rest) _ _) as [[?|?|?] ?]; simpl in *; by simplify_eq. }
  split; [|split].
  - intros e ->. by apply Herror.
  - intros ->. by apply Hpanic.
  - intros cell cells -> Hcell. apply Herror. intros s0 available.
    simpl. cbv [bind try ret index]. simpl.
    destruct cell as [name| | |]; [by destruct (Hcell name)|done..].
Qed.

(** X20: [Structure] sends one query, the catalog template with the
    driver's current catalog put between the quotes as it is, on the handle
    the client holds; an error of the query is returned, otherwise the
    result is the one of the generic extractor on the rows with the
    Databricks classifier.  The driver is not written to. *)
Theorem Structure_catalog_query (s : state) :
  let text := tables_of (currentCatalog (self s)) in
  let s' := mkState (self s) (trace s ++ [call_Query (db (c (self s))) text]) in
  Structure s
  = match QueryUntilNotEmpty (db (c (self s))) text with
    | Err e => (Error e, s')
    | Ok rows => (returned (GetGenericStructure rows getDatabricksStructureType), s')
    end.
Proof.
  run. destruct (QueryUntilNotEmpty _ _) as [rows|err]; simpl; [|done].
  by destruct (GetGenericStructure rows getDatabricksStructureType).
Qed.

(** X21: what [Structure] asks after a [SelectDatabase name]: when the
    open succeeded, the tables of [name] on the new handle; when it failed,
    the tables of the catalog that was current before, on the old handle. *)
Theorem Structure_after_SelectDatabase (s : state) (name : string) :
  let s' := snd (SelectDatabase name s) in
  (forall handle,
     sql_Open "databricks" (target name s) = Ok handle ->
     trace (snd (Structure s'))
     = (trace s' ++ [call_Query handle (tables_of name)])%list)
  /\ (forall err,
        sql_Open "databricks" (target name s) = Err err ->
        trace (snd (Structure s'))
        = (trace s' ++ [call_Query (db (c (self s)))
                                   (tables_of (currentCatalog (self s)))])%list).
Proof.
  simpl. split.
  - intros handle Hopen.
    rewrite (AdaptersSpec.SelectDatabase_opened _ _ _ _ _ Hopen).
    run. destruct (QueryUntilNotEmpty _ _) as [rows|]; simpl; [|done].
    by destruct (GetGenericStructure rows getDatabricksStructureType).
  - intros err Hopen.
    rewrite (AdaptersSpec.SelectDatabase_refused _ _ _ _ _ Hopen).
    run. destruct (QueryUntilNotEmpty _ _) as [rows|]; simpl; [|done].
    by destruct (GetGenericStructure rows getDatabricksStructureType).
Qed.

(** X22: each structure type other than none is returned for its listed
    kind strings only, byte for byte. *)
Theorem getDatabricksStructureType_only (typ : string) :
  (getDatabricksStructureType typ = StructureTypeTable ->
   typ ∈ ["TABLE"; "BASE TABLE"; "SYSTEM TABLE"])
  /\ (getDatabricksStructureType typ = StructureTypeView ->
      typ ∈ ["VIEW"; "SYSTEM VIEW"])
  /\ (getDatabricksStructureType typ = StructureTypeMaterializedView ->
      typ = "MATERIALIZED_VIEW")
  /\ (getDatabricksStructureType typ = StructureTypeStreamingTable ->
      typ = "STREAMING_TABLE")
  /\ (getDatabricksStructureType typ = StructureTypeManaged ->
      typ = "MANAGED").
Proof.
  unfold getDatabricksStructureType.
  destruct (String.eqb typ "TABLE") eqn:H1;
    [apply String.eqb_eq in H1 as ->; repeat split; try done; intros _; compute_done|].
  destruct (String.eqb typ "BASE TABLE") eqn:H2;
    [apply String.eqb_eq in H2 as ->; repeat split; try done; intros _; compute_done|].
  destruct (String.eqb typ "SYSTEM TABLE") eqn:H3;
    [apply String.eqb_eq in H3 as ->; repeat split; try done; intros _; compute_done|].
  destruct (String.eqb typ "VIEW") eqn:H4;
    [apply String.eqb_eq in H4 as ->; repeat split; try done; intros _; compute_done|].
  destruct (String.eqb typ "SYSTEM VIEW") eqn:H5;
    [apply String.eqb_eq in H5 as ->; repeat split; try done; intros _; compute_done|].
  destruct (String.eqb typ "MATERIALIZED_VIEW") eqn:H6;
    [apply String.eqb_eq in H6 as ->; repeat split; done|].
  destruct (String.eqb typ "STREAMING_TABLE") eqn:H7;
    [apply String.eqb_eq in H7 as ->; repeat split; done|].
  destruct (String.eqb typ "MANAGED") eqn:H8;
    [apply String.eqb_eq in H8 as ->; repeat split; done|].
  repeat split; done.
Qed.

End Spec.

(** *** The driver run on the stand-in collaborators *)

Import Doubles.

Abbreviation Connect :=
  (Adapters.Connect Doubles.sql_Open Doubles.url_Parse Doubles.URL_String).
Abbreviation SelectDatabase :=
  (Adapters.SelectDatabase Doubles.sql_Open Doubles.URL_String).
Abbreviation Structure :=
  (Adapters.Structure Doubles.other_directive Doubles.QueryTables
     Doubles.GetGenericStructure).
Abbreviation target name s :=
  (Doubles.URL_String (switched name (connectionURL (self s)))).

Lemma SelectDatabase_success_consistent_run :
  let s := mkState connected [] in
  Doubles.sql_Open "databricks" (target "samples" s)
  = Ok ("token:" +:+ warehouse +:+ "?catalog=samples")
  /\ currentCatalog (self (snd (SelectDatabase "samples" s)))
     = catalog_parameter (connectionURL (self (snd (SelectDatabase "samples" s)))).
Proof.
  intros s.
  assert (Doubles.sql_Open "databricks" (target "samples" s)
          = Ok ("token:" +:+ warehouse +:+ "?catalog=samples")) as Hopen
    by (vm_compute; reflexivity).
  split; [exact Hopen|].
  exact (SelectDatabase_success_consistent Doubles.sql_Open Doubles.URL_String
           s "samples" _ Hopen).
Defined.

Lemma SelectDatabase_empty_name_run :
  let s := mkState connected [] in
  Doubles.sql_Open "databricks" (target "" s)
  = Ok ("token:" +:+ warehouse +:+ "?catalog=")
  /\ fst (SelectDatabase "" s) = Return tt
  /\ currentCatalog (self (snd (SelectDatabase "" s))) = "".
Proof.
  intros s.
  assert (Doubles.sql_Open "databricks" (target "" s)
          = Ok ("token:" +:+ warehouse +:+ "?catalog=")) as Hopen
    by (vm_compute; reflexivity).
  destruct (SelectDatabase_empty_name Doubles.sql_Open Doubles.url_Parse
              Doubles.URL_String s _ Hopen) as (Hret & Hcur & _).
  split; [exact Hopen|]. split; [exact Hret|exact Hcur].
Defined.

Lemma ListDatabases_first_bad_row_run :
  Forall2 names_catalog [Ok [any_string "main"; any_string "note"]] ["main"]
  /\ fst (Adapters.ListDatabases Doubles.QueryBroken (driver_on "lost"))
     = Error (foreign_error "rows: connection lost")
  /\ fst (Adapters.ListDatabases Doubles.QueryBroken (driver_on "bare"))
     = Panic (index_out_of_range 0 0)
  /\ fst (Adapters.ListDatabases Doubles.QueryBroken (driver_on "typed"))
     = Error (fmt_Errorf "expected string, got %T" [of_any (any_int64 7)]).
Proof.
  assert (Forall2 names_catalog [Ok [any_string "main"; any_string "note"]] ["main"])
    as Hgood by (repeat constructor; by eexists).
  split; [exact Hgood|].
  split; [|split].
  - apply (ListDatabases_first_bad_row Doubles.QueryBroken (driver_on "lost")
             _ _ _ _ eq_refl Hgood). reflexivity.
  - apply (ListDatabases_first_bad_row Doubles.QueryBroken (driver_on "bare")
             _ _ _ _ eq_refl Hgood). reflexivity.
  - apply (ListDatabases_first_bad_row Doubles.QueryBroken (driver_on "typed")
             _ _ _ _ eq_refl Hgood) with (cells := [any_string "x"]);
      [reflexivity|discriminate].
Defined.

Lemma Structure_after_SelectDatabase_run :
  let s := mkState connected [] in
  Doubles.sql_Open "databricks" (target "samples" s)
  = Ok ("token:" +:+ warehouse +:+ "?catalog=samples")
  /\ last (trace (snd (Structure (snd (SelectDatabase "samples" s)))))
     = Some (call_Query ("token:" +:+ warehouse +:+ "?catalog=samples")
               (Sprintf Doubles.other_directive catalog_format ["samples"]))
  /\ Doubles.sql_Open "databricks" (target "offline" s)
     = Err (foreign_error "databricks: invalid DSN")
  /\ last (trace (snd (Structure (snd (SelectDatabase "offline" s)))))
     = Some (call_Query main_dsn tables_of_main).
Proof.
  intros s.
  assert (Doubles.sql_Open "databricks" (target "samples" s)
          = Ok ("token:" +:+ warehouse +:+ "?catalog=samples")) as Hopen
    by (vm_compute; reflexivity).
  assert (Doubles.sql_Open "databricks" (target "offline" s)
          = Err (foreign_error "databricks: invalid DSN")) as Hrefused
    by (vm_compute; reflexivity).
  destruct (Structure_after_SelectDatabase Doubles.sql_Open Doubles.URL_String
              Doubles.other_directive Doubles.QueryTables
              Doubles.GetGenericStructure s "samples") as [Hnew _].
  destruct (Structure_after_SelectDatabase Doubles.sql_Open Doubles.URL_String
              Doubles.other_directive Doubles.QueryTables
              Doubles.GetGenericStructure s "offline") as [_ Hold].
  split; [exact Hopen|]. split; [|split; [exact Hrefused|]].
  - rewrite (Hnew _ Hopen). by rewrite last_snoc.
  - rewrite (Hold _ Hrefused). by rewrite last_snoc.
Defined.

Lemma getDatabricksStructureType_only_run :
  getDatabricksStructureType "SYSTEM TABLE" = StructureTypeTable
  /\ "SYSTEM TABLE" ∈ ["TABLE"; "BASE TABLE"; "SYSTEM TABLE"]
  /\ getDatabricksStructureType "VIEW" = StructureTypeView
  /\ "VIEW" ∈ ["VIEW"; "SYSTEM VIEW"]
  /\ getDatabricksStructureType "MANAGED" = StructureTypeManaged.
Proof.
  assert (getDatabricksStructureType "SYSTEM TABLE" = StructureTypeTable)
    as Htable by reflexivity.
  assert (getDatabricksStructureType "VIEW" = StructureTypeView)
    as Hview by reflexivity.
  split; [exact Htable|].
  split; [exact (proj1 (getDatabricksStructureType_only "SYSTEM TABLE") Htable)|].
  split; [exact Hview|].
  split; [exact (proj1 (proj2 (getDatabricksStructureType_only "VIEW")) Hview)|].
  reflexivity.
Defined.

End AdaptersMore.
